(** * ppt_cloner: a shallow embedding of [scripts/ppt_cloner.py]

    The script opens a template presentation, deletes the slides a content
    plan does not ask for, substitutes text on the slides that stay and saves
    the result under another path.  This development embeds

    - the fragment of Python's [str], [list] and [dict] the script uses
      (module [Py]);
    - the fragment of the python-pptx object model the script touches: the
      presentation part with its relationships and its [sldIdLst], slides,
      shapes, text frames, paragraphs and runs (module [Pptx]);
    - the class [PPTCloner] and the command line entry point [main], written
      in a state-and-exception monad over the file system and a log of the
      calls that change a document or write a file.

    Conventions.  A Python [str] is a list of Unicode code points.  A [dict]
    whose iteration order is observable (the replacement dictionary) is an
    association list in insertion order; a dict that is only looked up is a
    [gmap].  [str.lower] depends on the case tables of the interpreter and is
    an interface ([Unicode]); everything else is defined.  A file is what the
    script reads from it (a presentation, a plan, an analysis); [save] and
    [json.dump] write a file in one step and do not fail.  Text written to
    standard output is not modelled, nor are the page dimensions (floating
    point) and the [source] field of the analysis, which no control flow
    reads.  The setter of [run.text] escapes control characters as
    python-pptx does; texts are taken to hold no character that XML has no
    place for (a surrogate, U+FFFE, U+FFFF), on which the library raises.

    Part I holds the embedding and the vocabulary of the statements, Part II
    the proofs.  The theorems that settle the claims of the specification
    carry the claim's number in their comment (C1, C2, ...); further
    properties of the code carry a number of their own (X1, X2, ...). *)

From stdpp Require Import base numbers list option strings gmap sorting.

Local Open Scope Z_scope.

(* ===================================================================== *)
(** * Part I: definitions *)
(* ===================================================================== *)

(** ** Python strings *)

Module Py.

(** A [str] is a sequence of code points. *)
Abbreviation str := (list N).

(** A literal of ASCII characters. *)
Definition lit (s : string) : str :=
  Ascii.N_of_ascii <$> String.list_ascii_of_string s.

(** [s.startswith(prefix)] *)
Fixpoint startswith (s prefix : str) {struct prefix} : bool :=
  match prefix, s with
  | [], _ => true
  | _ :: _, [] => false
  | a :: prefix', b :: s' => bool_decide (a = b) && startswith s' prefix'
  end.

(** [sub in s]: [sub] occurs in [s] as a contiguous substring. *)
Fixpoint contains (sub s : str) : bool :=
  startswith s sub ||
  match s with
  | [] => false
  | _ :: s' => contains sub s'
  end.

(** [str.replace] scans from the left; after a match it resumes behind the
    matched text, so the occurrences it replaces do not overlap.  [skip]
    counts the characters of the current match still to be passed over. *)
Fixpoint replace_from (old new : str) (skip : nat) (s : str) : str :=
  match s with
  | [] => []
  | c :: s' =>
      match skip with
      | S k => replace_from old new k s'
      | O =>
          if startswith s old
          then new ++ replace_from old new (pred (length old)) s'
          else c :: replace_from old new 0 s'
      end
  end.

(** [s.replace(old, new)].  The empty pattern matches before every
    character and at the end. *)
Definition replace (s old new : str) : str :=
  match old with
  | [] => new ++ flat_map (λ c, c :: new) s
  | _ :: _ => replace_from old new 0 s
  end.

(** [sep.join(parts)] *)
Fixpoint join (sep : str) (parts : list str) : str :=
  match parts with
  | [] => []
  | [p] => p
  | p :: rest => p ++ sep ++ join sep rest
  end.

(** [s.split(c)] for a one-character separator: never the empty list. *)
Fixpoint split (c : N) (s : str) : list str :=
  match s with
  | [] => [[]]
  | x :: s' =>
      if bool_decide (x = c) then [] :: split c s'
      else match split c s' with
           | [] => [[x]]
           | p :: ps => (x :: p) :: ps
           end
  end.

(** [c.isspace()]: the white space of the Unicode character database. *)
Definition isspace (c : N) : bool :=
  ((9 <=? c) && (c <=? 13) || (28 <=? c) && (c <=? 32)
   || (c =? 133) || (c =? 160) || (c =? 5760)
   || (8192 <=? c) && (c <=? 8202)
   || (c =? 8232) || (c =? 8233) || (c =? 8239) || (c =? 8287)
   || (c =? 12288))%N.

Fixpoint lstrip (s : str) : str :=
  match s with
  | [] => []
  | c :: s' => if isspace c then lstrip s' else s
  end.

Definition rstrip (s : str) : str := reverse (lstrip (reverse s)).

(** [s.strip()] *)
Definition strip (s : str) : str := rstrip (lstrip s).

(** [re.match(r'^[0-9０-９]+$', s)]: one or more ASCII or full-width digits,
    then the end of the string; [$] also matches before a final newline. *)
Definition is_digit (c : N) : bool :=
  ((48 <=? c) && (c <=? 57) || (65296 <=? c) && (c <=? 65305))%N.

Fixpoint after_digits (s : str) : str :=
  match s with
  | [] => []
  | c :: s' => if is_digit c then after_digits s' else s
  end.

Definition match_digits (s : str) : bool :=
  match s with
  | [] => false
  | c :: s' =>
      is_digit c &&
      match after_digits s' with
      | [] => true
      | [10%N] => true
      | _ => false
      end
  end.

(** A dict in insertion order.  Keys of a dict are unique. *)
Abbreviation dict := (list (str * str)).

(** [d.get(k)]; [k in d] is [is_Some (dict_get d k)]. *)
Fixpoint dict_get (d : dict) (k : str) : option str :=
  match d with
  | [] => None
  | (k', v) :: d' => if bool_decide (k' = k) then Some v else dict_get d' k
  end.

(** The position an index [i] denotes in a sequence of length [n]: a
    negative index counts from the end; [None] stands for [IndexError]. *)
Definition position (n : nat) (i : Z) : option nat :=
  if bool_decide (0 ≤ i)
  then (if bool_decide (i < Z.of_nat n) then Some (Z.to_nat i) else None)
  else if bool_decide (- Z.of_nat n ≤ i)
       then Some (Z.to_nat (Z.of_nat n + i))
       else None.

(** [l[i]] *)
Definition index {A} (l : list A) (i : Z) : option A :=
  p ← position (length l) i; l !! p.

(** [range(n)] *)
Definition range (n : nat) : list Z := Z.of_nat <$> seq 0 n.

(** [sorted(l)] and [sorted(l, reverse=True)] on integers. *)
Definition sorted (l : list Z) : list Z := merge_sort Z.le l.
Definition sorted_reverse (l : list Z) : list Z := merge_sort Z.ge l.

(** [enumerate(l)] *)
Definition enumerate {A} (l : list A) : list (Z * A) :=
  imap (λ i x, (Z.of_nat i, x)) l.

(** The exceptions the script and the libraries under it raise.
    [SystemExit] is what [sys.exit(code)] raises. *)
Inductive exn :=
  | FileNotFoundError
  | IndexError
  | KeyError
  | ValueError
  | AttributeError
  | PackageNotFoundError
  | SystemExit (code : Z).

Inductive result (A : Type) :=
  | Ok (a : A)
  | Raise (e : exn).
Arguments Ok {A} a.
Arguments Raise {A} e.

Definition from_option {A} (e : exn) (o : option A) : result A :=
  match o with
  | Some a => Ok a
  | None => Raise e
  end.

End Py.

(** ** The python-pptx object model *)

Module Pptx.
Import Py.

(** The content of a paragraph: runs of text ([a:r]) and line breaks
    ([a:br]).  [paragraph.runs] are the runs alone. *)
Inductive item :=
  | Run (text : str)
  | Br.

Abbreviation paragraph := (list item).

(** A text frame is its list of paragraphs. *)
Abbreviation text_frame := (list paragraph).

Record shape := Shape {
  shape_name : str;
  (** [None] when [shape.has_text_frame] is false *)
  shape_text_frame : option text_frame;
}.

Record slide := Slide {
  (** the name of [slide.slide_layout], when there is one *)
  slide_layout : option str;
  shapes : list shape;
}.

(** The presentation part: its relationships to slide parts, by [rId], and
    the [sldIdLst] element, whose children each hold the [rId] of a slide.
    [prs.slides] is a view of both. *)
Record presentation := Presentation_ {
  rels : gmap str slide;
  sldIdLst : list str;
}.

(** A line break reads as a vertical tab. *)
Definition item_text (i : item) : str :=
  match i with
  | Run t => t
  | Br => [11%N]
  end.

(** [paragraph.text] *)
Definition paragraph_text (p : paragraph) : str := concat (item_text <$> p).

(** [text_frame.text]: the paragraphs joined by newlines. *)
Definition text (tf : text_frame) : str := join [10%N] (paragraph_text <$> tf).

(** The characters the setter of [run.text] escapes: the control characters
    but tab and newline, [[\x00-\x08\x0B-\x1F]]. *)
Definition escaped (c : N) : bool :=
  ((c <=? 8) || ((11 <=? c) && (c <=? 31)))%N.

(** A digit of [%04X]. *)
Definition hex_digit (n : N) : N :=
  (if n <? 10 then 48 + n else 55 + n)%N.

(** ["_x%04X_" % ord(c)] for an escaped character, the character itself
    otherwise. *)
Definition escape_char (c : N) : str :=
  if escaped c
  then lit "_x" ++ [hex_digit (c / 4096 mod 16); hex_digit (c / 256 mod 16);
                    hex_digit (c / 16 mod 16); hex_digit (c mod 16)]%N ++ lit "_"
  else [c].

(** What [run.text = s] stores, and [run.text] then reads: [s] with its
    control characters escaped. *)
Definition escape (s : str) : str := flat_map escape_char s.

(** [paragraph.append_text]: a vertical tab becomes a line break, no run
    is made of an empty piece, and the text of a run is set through the
    setter of [run.text]. *)
Fixpoint append_pieces (first : bool) (pieces : list str) : paragraph :=
  match pieces with
  | [] => []
  | r :: rest =>
      (if first then [] else [Br]) ++
      (match r with [] => [] | _ :: _ => [Run (escape r)] end) ++
      append_pieces false rest
  end.

Definition append_text (s : str) : paragraph := append_pieces true (split 11%N s).

(** [shape.text = s]: the content is cleared, and a paragraph is added for
    each line of [s]. *)
Definition set_text (sh : shape) (s : str) : shape :=
  {| shape_name := shape_name sh;
     shape_text_frame := Some (append_text <$> split 10%N s) |}.

(** [len(prs.slides)] *)
Definition slides_len (prs : presentation) : nat := length (sldIdLst prs).

(** [part.related_slide(rId)] *)
Definition related_slide (prs : presentation) (rId : str) : result slide :=
  from_option KeyError (rels prs !! rId).

(** [prs.slides[idx]]: the slide, with the [rId] under which the part holds
    it. *)
Definition slides_getitem (prs : presentation) (idx : Z) : result (str * slide) :=
  match index (sldIdLst prs) idx with
  | None => Raise IndexError
  | Some rId =>
      match related_slide prs rId with
      | Ok sl => Ok (rId, sl)
      | Raise e => Raise e
      end
  end.

(** Iterating [prs.slides]. *)
Fixpoint related_slides (prs : presentation) (rIds : list str) : result (list slide) :=
  match rIds with
  | [] => Ok []
  | rId :: rest =>
      match related_slide prs rId with
      | Raise e => Raise e
      | Ok sl =>
          match related_slides prs rest with
          | Raise e => Raise e
          | Ok sls => Ok (sl :: sls)
          end
      end
  end.

Definition slides (prs : presentation) : result (list slide) :=
  related_slides prs (sldIdLst prs).

(** [part.drop_rel(rId)]: the relationship is removed unless the part's XML
    refers to it twice or more. *)
Definition rel_ref_count (prs : presentation) (rId : str) : nat :=
  length (filter (λ r, r = rId) (sldIdLst prs)).

Definition drop_rel (prs : presentation) (rId : str) : result presentation :=
  if bool_decide (rel_ref_count prs rId < 2)%nat then
    match rels prs !! rId with
    | None => Raise KeyError
    | Some _ => Ok {| rels := delete rId (rels prs); sldIdLst := sldIdLst prs |}
    end
  else Ok prs.

(** [del prs.slides._sldIdLst[idx]] *)
Definition del_sldId (prs : presentation) (idx : Z) : result presentation :=
  match position (length (sldIdLst prs)) idx with
  | None => Raise IndexError
  | Some p => Ok {| rels := rels prs; sldIdLst := delete p (sldIdLst prs) |}
  end.

(** A slide object is shared with the part: a change made through it is a
    change of the part. *)
Definition store_slide (prs : presentation) (rId : str) (sl : slide) : presentation :=
  {| rels := <[rId := sl]> (rels prs); sldIdLst := sldIdLst prs |}.

End Pptx.

(** ** Files, plans and the process state *)

Import Py.

(** An entry of the content plan, as [json.load] returns it: each key may be
    absent ([null] for [template_slide] reads the same as absent). *)
Record plan_item := PlanItem {
  item_template_slide : option Z;
  item_type : option str;
  item_replacements : option dict;
}.

(** [SlideInfo] *)
Record SlideInfo := {
  info_index : Z;
  info_type : str;
  info_layout_name : str;
  (** pairs of [shape_name] and [text] *)
  info_text_elements : list (str * str);
  info_shape_count : nat;
  info_preview_text : str;
}.

(** The analysis of a template: [slide_count], [slides], [slide_types]. *)
Record Analysis := {
  slide_count : nat;
  slide_infos : list SlideInfo;
  slide_types : gmap str (list Z);
}.

(** What a path of the file system holds, read the way the script reads it:
    a presentation package, a content plan in JSON, an exported analysis, or
    anything else. *)
Inductive file :=
  | FilePptx (prs : Pptx.presentation)
  | FilePlan (plan : list plan_item)
  | FileAnalysis (a : Analysis)
  | FileOther.

(** The calls that change a document or write a file, in the order they are
    made. *)
Inductive call :=
  | CallDropRel (rId : str)
  | CallDelSldId (idx : Z)
  | CallApplyReplacements (new_idx : Z)
  | CallSave (path : str)
  | CallExport (path : str).

Record world := World {
  files : gmap str file;
  calls : list call;
}.

(** Computations that read and write the world and may raise. *)
Definition M (A : Type) : Type := world → result A * world.

#[global] Instance M_ret : MRet M := λ A a w, (Ok a, w).
#[global] Instance M_bind : MBind M := λ A B f m w,
  match m w with
  | (Ok a, w') => f a w'
  | (Raise e, w') => (Raise e, w')
  end.

Definition raise {A} (e : exn) : M A := λ w, (Raise e, w).

Definition lift {A} (r : result A) : M A := λ w, (r, w).

Definition log (c : call) : M unit :=
  λ w, (Ok tt, {| files := files w; calls := calls w ++ [c] |}).

(** A [for] loop that updates a local variable. *)
Fixpoint for_ {A S} (l : list A) (body : A → S → M S) (s : S) : M S :=
  match l with
  | [] => mret s
  | x :: l' => s' ← body x s; for_ l' body s'
  end.

(** [Path(path).exists()] *)
Definition path_exists (path : str) : M bool :=
  λ w, (Ok (bool_decide (is_Some (files w !! path))), w).

(** [Presentation(path)]: the package at [path], loaded into memory. *)
Definition Presentation (path : str) : M Pptx.presentation :=
  λ w, match files w !! path with
       | Some (FilePptx prs) => (Ok prs, w)
       | _ => (Raise PackageNotFoundError, w)
       end.

(** [prs.save(path)] *)
Definition save (prs : Pptx.presentation) (path : str) : M unit :=
  λ w, (Ok tt, {| files := <[path := FilePptx prs]> (files w);
                  calls := calls w ++ [CallSave path] |}).

(** What [json.load] returns for the plan file: the list of the entries,
    or, for a file that holds an exported analysis, a JSON object, whose keys
    are strings. *)
Inductive plan_json :=
  | PlanList (plan : list plan_item)
  | PlanObject.

(** [json.load(open(path))] of a content plan. *)
Definition load_plan (path : str) : M plan_json :=
  λ w, match files w !! path with
       | None => (Raise FileNotFoundError, w)
       | Some (FilePlan plan) => (Ok (PlanList plan), w)
       | Some (FileAnalysis _) => (Ok PlanObject, w)
       | Some _ => (Raise ValueError, w)
       end.

(** [json.dump(analysis, open(path, 'w'))] *)
Definition dump_analysis (a : Analysis) (path : str) : M unit :=
  λ w, (Ok tt, {| files := <[path := FileAnalysis a]> (files w);
                  calls := calls w ++ [CallExport path] |}).

(** [sys.exit(code)] *)
Definition sys_exit {A} (code : Z) : M A := raise (SystemExit code).

(** The exit status of the interpreter: 0 when the script returns, the code
    of [sys.exit], 1 after any other exception. *)
Definition exit_status {A} (r : result A) : Z :=
  match r with
  | Ok _ => 0
  | Raise (SystemExit code) => code
  | Raise _ => 1
  end.

(** [str.lower] *)
Class Unicode := lower : str → str.

(** ** The class [PPTCloner] *)

Section cloner.
Context `{Unicode}.

(** The keyword lists of [_infer_slide_type]; the Chinese words are written
    by their code points. *)
Definition cover_keywords : list str :=
  [lit "title"; lit "cover"; [0x5c01; 0x9762]%N].
Definition divider_keywords : list str :=
  [lit "section"; lit "divider"; [0x7ae0; 0x8282]%N].
Definition toc_keywords : list str :=
  [[0x76ee; 0x5f55]%N; lit "contents"; lit "agenda"].
Definition ending_keywords : list str :=
  [[0x8c22; 0x8c22]%N; lit "thank"; [0x611f; 0x8c22]%N; [0x8046; 0x542c]%N].
Definition divider_numbers : list str :=
  [lit "01"; lit "02"; lit "03"; lit "04"; lit "05"].

(** [any(k in s for k in keywords)] *)
Definition any_in (keywords : list str) (s : str) : bool :=
  existsb (λ k, contains k s) keywords.

(** The test of the last rule on one text element. *)
Definition is_number_text (t : str * str) : bool :=
  let text := strip t.2 in
  match_digits text || bool_decide (text ∈ divider_numbers).

Definition _infer_slide_type (info : SlideInfo) (idx : Z) (total : nat) : str :=
  let layout_lower := lower (info_layout_name info) in
  let all_text := join (lit " ") ((λ t, lower t.2) <$> info_text_elements info) in
  if bool_decide (idx = 0) then lit "cover"
  else if any_in cover_keywords layout_lower then lit "cover"
  else if any_in divider_keywords layout_lower then lit "divider"
  else if any_in toc_keywords all_text then lit "toc"
  else if any_in ending_keywords all_text then lit "ending"
  else if bool_decide (length (info_text_elements info) ≤ 4)%nat
          && existsb is_number_text (info_text_elements info)
       then lit "divider"
  else lit "content".

(** The loop of [_analyze_slide] over the shapes: the text elements found so
    far and the preview text. *)
Definition scan_shape (acc : list (str * str) * str) (sh : Pptx.shape)
  : list (str * str) * str :=
  match Pptx.shape_text_frame sh with
  | None => acc
  | Some tf =>
      let text := strip (Pptx.text tf) in
      match text with
      | [] => acc
      | _ :: _ =>
          (acc.1 ++ [(Pptx.shape_name sh, text)],
           match acc.2 with [] => take 50 text | _ :: _ => acc.2 end)
      end
  end.

Definition _analyze_slide (sl : Pptx.slide) (idx : Z) (total : nat) : SlideInfo :=
  let scanned := fold_left scan_shape (Pptx.shapes sl) ([], []) in
  let info :=
    {| info_index := idx;
       info_type := lit "content";
       info_layout_name := default (lit "Unknown") (Pptx.slide_layout sl);
       info_text_elements := scanned.1;
       info_shape_count := length (Pptx.shapes sl);
       info_preview_text := scanned.2 |} in
  {| info_index := info_index info;
     info_type := _infer_slide_type info idx total;
     info_layout_name := info_layout_name info;
     info_text_elements := info_text_elements info;
     info_shape_count := info_shape_count info;
     info_preview_text := info_preview_text info |}.

(** [result['slide_types'][info.type].append(idx)] *)
Definition record_type (types : gmap str (list Z)) (info : SlideInfo)
  : gmap str (list Z) :=
  <[info_type info := default [] (types !! info_type info) ++ [info_index info]]> types.

Definition _analyze_template (template_path : str) : M Analysis :=
  prs ← Presentation template_path;
  sls ← lift (Pptx.slides prs);
  let infos := (λ '(idx, sl), _analyze_slide sl idx (Pptx.slides_len prs)) <$> enumerate sls in
  mret {| slide_count := Pptx.slides_len prs;
          slide_infos := infos;
          slide_types := fold_left record_type infos ∅ |}.

Record PPTCloner := {
  template_path : str;
  analysis : Analysis;
}.

(** [PPTCloner.__init__] *)
Definition PPTCloner_init (path : str) : M PPTCloner :=
  found ← path_exists path;
  if negb found then raise FileNotFoundError
  else
    a ← _analyze_template path;
    mret {| template_path := path; analysis := a |}.

Definition get_slides_by_type (self : PPTCloner) (slide_type : str) : list Z :=
  default [] (slide_types (analysis self) !! slide_type).

(** The template position a plan entry stands for: [template_slide] when it
    is given, else the first slide of the entry's [type] (of ['content'] when
    no type is given), else 0.  [create_from_plan] and [main] both resolve
    their entries this way. *)
Definition resolve_template_idx (self : PPTCloner) (item : plan_item) : Z :=
  match item_template_slide item with
  | Some template_idx => template_idx
  | None =>
      let slide_type := default (lit "content") (item_type item) in
      let type_slides := get_slides_by_type self slide_type in
      match type_slides with
      | [] => 0
      | first :: _ => first
      end
  end.

(** The body of the loop over a text run in [_apply_replacements]:
    [original] is the text of the run as the keys before have left it.  The
    new text goes through the setter of [run.text], and it is the text read
    back from the run that the next key works on. *)
Definition replace_key (original : str) (kv : str * str) : str :=
  let '(old_text, new_text) := kv in
  if startswith old_text (lit "shape:") then original
  else if contains old_text original
       then Pptx.escape (replace original old_text new_text)
  else original.

Definition replace_run (replacements : dict) (i : Pptx.item) : Pptx.item :=
  match i with
  | Pptx.Run [] => i
  | Pptx.Run ((_ :: _) as text) => Pptx.Run (fold_left replace_key replacements text)
  | Pptx.Br => i
  end.

(** The body of the loop over the shapes in [_apply_replacements]. *)
Definition replace_shape (replacements : dict) (sh : Pptx.shape) : Pptx.shape :=
  match Pptx.shape_text_frame sh with
  | None => sh
  | Some tf =>
      let shape_name_key := lit "shape:" ++ Pptx.shape_name sh in
      match dict_get replacements shape_name_key with
      | Some v => Pptx.set_text sh v
      | None =>
          let full_text := strip (Pptx.text tf) in
          match dict_get replacements full_text with
          | Some v => Pptx.set_text sh v
          | None =>
              {| Pptx.shape_name := Pptx.shape_name sh;
                 Pptx.shape_text_frame := Some ((λ p : Pptx.paragraph, replace_run replacements <$> p) <$> tf) |}
          end
      end
  end.

Definition _apply_replacements (sl : Pptx.slide) (replacements : dict) : Pptx.slide :=
  {| Pptx.slide_layout := Pptx.slide_layout sl;
     Pptx.shapes := replace_shape replacements <$> Pptx.shapes sl |}.

(** The body of both deletion loops: the relationship of the slide at
    [idx] is dropped, then its entry is removed from the list. *)
Definition delete_slide (idx : Z) (prs : Pptx.presentation) : M Pptx.presentation :=
  rId ← lift (from_option IndexError (index (Pptx.sldIdLst prs) idx));
  log (CallDropRel rId);;
  prs ← lift (Pptx.drop_rel prs rId);
  log (CallDelSldId idx);;
  lift (Pptx.del_sldId prs idx).

(** [slide = prs.slides[new_idx]; self._apply_replacements(slide, d)] *)
Definition replace_on_slide (new_idx : Z) (replacements : result dict)
    (prs : Pptx.presentation) : M Pptx.presentation :=
  '(rId, sl) ← lift (Pptx.slides_getitem prs new_idx);
  d ← lift replacements;
  log (CallApplyReplacements new_idx);;
  mret (Pptx.store_slide prs rId (_apply_replacements sl d)).

(** The old-to-new mapping of [create_simple]: the sorted requested
    positions, numbered from 0. *)
Definition number_sorted (acc : gmap Z Z * Z) (old_idx : Z) : gmap Z Z * Z :=
  (<[old_idx := acc.2]> acc.1, acc.2 + 1).

Definition old_to_new_simple (slide_indices : list Z) : gmap Z Z :=
  (fold_left number_sorted (sorted slide_indices) (∅, 0)).1.

Definition to_delete_simple (total : nat) (slide_indices : list Z) : gset Z :=
  list_to_set (range total) ∖ list_to_set slide_indices.

(** The two loops of [create_simple] on the loaded document. *)
Definition prune_simple (slide_indices : list Z) (prs : Pptx.presentation)
  : M Pptx.presentation :=
  let total := Pptx.slides_len prs in
  let to_delete := to_delete_simple total slide_indices in
  for_ (sorted_reverse (elements to_delete)) delete_slide prs.

(** The body of the replacement loop of [create_simple], for the entry
    [(i, old_idx)] of [enumerate(slide_indices)]. *)
Definition replace_entry (old_to_new : gmap Z Z) (replacements_list : list dict)
    (entry : Z * Z) (prs : Pptx.presentation) : M Pptx.presentation :=
  let '(i, old_idx) := entry in
  match old_to_new !! old_idx with
  | Some new_idx =>
      if bool_decide (i < Z.of_nat (length replacements_list))
      then replace_on_slide new_idx
             (from_option IndexError (index replacements_list i)) prs
      else mret prs
  | None => mret prs
  end.

Definition substitute_simple (slide_indices : list Z) (replacements_list : list dict)
    (prs : Pptx.presentation) : M Pptx.presentation :=
  let old_to_new := old_to_new_simple slide_indices in
  for_ (enumerate slide_indices) (replace_entry old_to_new replacements_list) prs.

Definition create_simple (self : PPTCloner) (slide_indices : list Z)
    (replacements_list : list dict) (output_path : str) : M str :=
  prs ← Presentation (template_path self);
  prs ← prune_simple slide_indices prs;
  prs ← substitute_simple slide_indices replacements_list prs;
  save prs output_path;;
  mret output_path.

(** [create_from_plan]: the entries to keep, with their replacements. *)
Definition slides_to_keep (self : PPTCloner) (content_plan : list plan_item)
  : list (Z * dict) :=
  (λ item, (resolve_template_idx self item, default [] (item_replacements item)))
    <$> content_plan.

Definition indices_to_delete (total_slides : nat) (keep : list (Z * dict)) : gset Z :=
  fold_left (λ s item, s ∖ {[item.1]}) keep (list_to_set (range total_slides)).

(** The old-to-new mapping of [create_from_plan]: the positions that are not
    deleted, numbered from 0 in ascending order. *)
Definition number_kept (deleted : gset Z) (acc : gmap Z Z * Z) (old_idx : Z)
  : gmap Z Z * Z :=
  if bool_decide (old_idx ∉ deleted)
  then (<[old_idx := acc.2]> acc.1, acc.2 + 1)
  else acc.

Definition old_to_new_plan (total_slides : nat) (deleted : gset Z) : gmap Z Z :=
  (fold_left (number_kept deleted) (range total_slides) (∅, 0)).1.

Definition create_from_plan (self : PPTCloner) (content_plan : list plan_item)
    (output_path : str) : M str :=
  prs ← Presentation (template_path self);
  let keep := slides_to_keep self content_plan in
  let total_slides := Pptx.slides_len prs in
  let deleted := indices_to_delete total_slides keep in
  prs ← for_ (sorted_reverse (elements deleted)) delete_slide prs;
  let old_to_new := old_to_new_plan total_slides deleted in
  prs ← for_ keep
    (λ item prs,
       match old_to_new !! item.1 with
       | Some new_idx => replace_on_slide new_idx (Ok item.2) prs
       | None => mret prs
       end) prs;
  save prs output_path;;
  mret output_path.

Definition export_analysis (self : PPTCloner) (output_path : str) : M unit :=
  dump_analysis (analysis self) output_path.

(** [sys.argv[i]], for an index the script has checked. *)
Definition arg (argv : list str) (i : nat) : M str :=
  lift (from_option IndexError (argv !! i)).

(** [main], with [argv] standing for [sys.argv]. *)
Definition main (argv : list str) : M unit :=
  if bool_decide (length argv < 2)%nat then sys_exit 1
  else
    command ← arg argv 1;
    if bool_decide (command = lit "analyze") then
      if bool_decide (length argv < 3)%nat then sys_exit 1
      else
        template_path ← arg argv 2;
        let output_json := if bool_decide (3 < length argv)%nat then argv !! 3%nat else None in
        cloner ← PPTCloner_init template_path;
        match output_json with
        | Some ((_ :: _) as path) => export_analysis cloner path
        | _ => mret tt
        end
    else if bool_decide (command = lit "create") then
      if bool_decide (length argv < 5)%nat then sys_exit 1
      else
        template_path ← arg argv 2;
        plan_path ← arg argv 3;
        output_path ← arg argv 4;
        content_plan ← load_plan plan_path;
        cloner ← PPTCloner_init template_path;
        match content_plan with
        | PlanList content_plan =>
            let slide_indices := resolve_template_idx cloner <$> content_plan in
            let replacements_list := (λ item, default [] (item_replacements item)) <$> content_plan in
            create_simple cloner slide_indices replacements_list output_path;;
            mret tt
        | PlanObject =>
            (* the loop takes a key of the object for an entry, and
               [item.get] on a string is an [AttributeError] *)
            raise AttributeError
        end
    else sys_exit 1.

End cloner.

(** [str.lower] on the ASCII letters; the other code points are left as
    they are.  It is the instance the examples below run under. *)
Definition ascii_lower : Unicode :=
  fmap (λ c, if ((65 <=? c) && (c <=? 90))%N then (c + 32)%N else c).

(* ===================================================================== *)
(** * Part I, continued: the vocabulary of the statements *)
(* ===================================================================== *)

Import Py.

(** ** Text *)


(** [k] occurs in [s] as a substring. *)
Definition occurs (k s : str) : Prop := ∃ a b, s = a ++ k ++ b.




(** A numeric token: a non-empty string of ASCII or full-width digits. *)
Definition numeric_token (text : str) : Prop :=
  text ≠ [] ∧ Forall (λ c, is_digit c = true) text.

Section category.
Context `{Unicode}.

(** One of the keywords occurs in the lower-cased layout name. *)
Definition layout_matches (keywords : list str) (info : SlideInfo) : Prop :=
  ∃ k, k ∈ keywords ∧ occurs k (lower (info_layout_name info)).

(** One of the keywords occurs in the lower-cased texts of the slide, joined
    by spaces. *)
Definition text_matches (keywords : list str) (info : SlideInfo) : Prop :=
  ∃ k, k ∈ keywords ∧
    occurs k (join (lit " ") ((λ t, lower t.2) <$> info_text_elements info)).

(** At most four text elements, one of them a numeric token. *)
Definition few_texts_with_number (info : SlideInfo) : Prop :=
  (length (info_text_elements info) ≤ 4)%nat ∧
  ∃ t, t ∈ info_text_elements info ∧ numeric_token (strip t.2).

(** The category of a slide by the precedence of the rules: each rule
    applies only when none before it does. *)
Inductive category_of (info : SlideInfo) (idx : Z) : str → Prop :=
  | category_first :
      idx = 0 → category_of info idx (lit "cover")
  | category_layout_cover :
      idx ≠ 0 → layout_matches cover_keywords info →
      category_of info idx (lit "cover")
  | category_layout_section :
      idx ≠ 0 → ¬ layout_matches cover_keywords info →
      layout_matches divider_keywords info →
      category_of info idx (lit "divider")
  | category_text_toc :
      idx ≠ 0 → ¬ layout_matches cover_keywords info →
      ¬ layout_matches divider_keywords info →
      text_matches toc_keywords info →
      category_of info idx (lit "toc")
  | category_text_ending :
      idx ≠ 0 → ¬ layout_matches cover_keywords info →
      ¬ layout_matches divider_keywords info →
      ¬ text_matches toc_keywords info →
      text_matches ending_keywords info →
      category_of info idx (lit "ending")
  | category_number :
      idx ≠ 0 → ¬ layout_matches cover_keywords info →
      ¬ layout_matches divider_keywords info →
      ¬ text_matches toc_keywords info →
      ¬ text_matches ending_keywords info →
      few_texts_with_number info →
      category_of info idx (lit "divider")
  | category_default :
      idx ≠ 0 → ¬ layout_matches cover_keywords info →
      ¬ layout_matches divider_keywords info →
      ¬ text_matches toc_keywords info →
      ¬ text_matches ending_keywords info →
      ¬ few_texts_with_number info →
      category_of info idx (lit "content").

End category.




(** ** Effects *)

(** A call that changes the document in memory and writes no file. *)
Definition document_call (c : call) : Prop :=
  match c with
  | CallSave _ | CallExport _ => False
  | _ => True
  end.

(** A computation that writes no file: it leaves the files as they are and
    adds document calls only. *)
Definition quiet {A} (m : M A) : Prop :=
  ∀ w, files (m w).2 = files w ∧
       ∃ cs, calls (m w).2 = calls w ++ cs ∧ Forall document_call cs.

(** The outcome of a run that saves to [output_path] as its last step, and
    only when every step before it has succeeded. *)
Definition saved_last {A} (output_path : str) (w : world) (out : result A * world) : Prop :=
  match out.1 with
  | Raise _ =>
      files out.2 = files w ∧
      ∃ cs, calls out.2 = calls w ++ cs ∧ Forall document_call cs
  | Ok _ =>
      ∃ prs cs, files out.2 = <[output_path := FilePptx prs]> (files w) ∧
                calls out.2 = calls w ++ cs ++ [CallSave output_path] ∧
                Forall document_call cs
  end.

(** A computation that writes no path but [out]. *)
Definition touches_only {A} (out : option str) (m : M A) : Prop :=
  ∀ w p, Some p ≠ out → files (m w).2 !! p = files w !! p.

(** The path a command line names for its output: the fourth argument of
    [analyze], the fifth of [create]. *)
Definition output_argument (argv : list str) : option str :=
  match argv !! 1%nat with
  | Some command =>
      if bool_decide (command = lit "analyze") then argv !! 3%nat
      else if bool_decide (command = lit "create") then argv !! 4%nat
      else None
  | None => None
  end.

(** ** Documents *)

Section analysis_of.
Context `{Unicode}.

(** The analysis [_analyze_template] computes from the slides of a
    template. *)
Definition analysis_of (prs : Pptx.presentation) (sls : list Pptx.slide) : Analysis :=
  let infos := (λ '(idx, sl), _analyze_slide sl idx (Pptx.slides_len prs)) <$> enumerate sls in
  {| slide_count := Pptx.slides_len prs;
     slide_infos := infos;
     slide_types := fold_left record_type infos ∅ |}.

End analysis_of.

(** Every entry of the slide list has its relationship. *)
Definition well_formed (prs : Pptx.presentation) : Prop :=
  ∀ rId, rId ∈ Pptx.sldIdLst prs → is_Some (Pptx.rels prs !! rId).

(** The positions below [n] that a list of requested positions names, in
    ascending order, and the ones it does not name, in descending order. *)
Definition kept_positions (n : nat) (slide_indices : list Z) : list nat :=
  filter (λ i, Z.of_nat i ∈ slide_indices) (seq 0 n).




#[global] Instance well_formed_dec (prs : Pptx.presentation) : Decision (well_formed prs).
Proof.
  refine (cast_if (decide (Forall (λ rId, is_Some (Pptx.rels prs !! rId))
                                  (Pptx.sldIdLst prs))));
    unfold well_formed; by rewrite <-Forall_forall.
Defined.




(** ** [create_from_plan] *)



(** ** The analysis *)

(** The text element [_analyze_slide] records for a shape: the name of the
    shape with its trimmed text, when the shape bears text and the trimmed
    text is not empty. *)
Definition text_element (sh : Pptx.shape) : option (str * str) :=
  tf ← Pptx.shape_text_frame sh;
  match strip (Pptx.text tf) with
  | [] => None
  | (_ :: _) as text => Some (Pptx.shape_name sh, text)
  end.

(** The categories [_infer_slide_type] returns. *)
Definition categories : list str :=
  [lit "cover"; lit "divider"; lit "toc"; lit "ending"; lit "content"].

(** ** Slide parts and exit codes *)



(** A computation that, when it ends the process by [sys.exit], does so with
    [code]. *)
Definition exits_with {A} (code : Z) (m : M A) : Prop :=
  ∀ w c, (m w).1 = Raise (SystemExit c) → c = code.

(** The texts of the shapes of each slide of the presentation saved at
    [path], and the entries of its slide list. *)
Definition texts_at (w : world) (path : str) : option (list (list str)) :=
  match files w !! path with
  | Some (FilePptx prs) =>
      match Pptx.slides prs with
      | Ok sls =>
          Some ((λ sl, omap (λ sh, Pptx.text <$> Pptx.shape_text_frame sh)
                         (Pptx.shapes sl)) <$> sls)
      | Raise _ => None
      end
  | _ => None
  end.

Definition slide_ids_at (w : world) (path : str) : option (list str) :=
  match files w !! path with
  | Some (FilePptx prs) => Some (Pptx.sldIdLst prs)
  | _ => None
  end.

(** ** A template of three slides, and plans for it *)

Module Sample.

Definition textbox (name text : string) : Pptx.shape :=
  Pptx.Shape (lit name) (Some [[Pptx.Run (lit text)]]).

Definition cover : Pptx.slide :=
  Pptx.Slide (Some (lit "Title Slide")) [textbox "Title" "Deck"].
Definition body : Pptx.slide :=
  Pptx.Slide (Some (lit "Blank")) [textbox "Body" "Hello"].
Definition closing : Pptx.slide :=
  Pptx.Slide (Some (lit "Blank")) [textbox "End" "Thank you"].

Definition template : Pptx.presentation :=
  Pptx.Presentation_
    (list_to_map [(lit "rId2", cover); (lit "rId3", body); (lit "rId4", closing)])
    [lit "rId2"; lit "rId3"; lit "rId4"].

(** [[{"template_slide": 0}, {"template_slide": 1, "replacements": {"Hello": "World"}}]] *)
Definition plan_two : list plan_item :=
  [PlanItem (Some 0) None None;
   PlanItem (Some 1) None (Some [(lit "Hello", lit "World")])].

(** Two entries for position 0, the second working on the text the first
    leaves. *)
Definition plan_repeated : list plan_item :=
  [PlanItem (Some 0) None (Some [(lit "Deck", lit "A")]);
   PlanItem (Some 0) None (Some [(lit "A", lit "B")])].

(** [[{"template_slide": 0}, {"template_slide": 7}]] *)
Definition plan_beyond : list plan_item :=
  [PlanItem (Some 0) None None; PlanItem (Some 7) None None].

Definition world : world :=
  World (list_to_map [(lit "t.pptx", FilePptx template);
                      (lit "two.json", FilePlan plan_two);
                      (lit "repeated.json", FilePlan plan_repeated);
                      (lit "beyond.json", FilePlan plan_beyond)]) [].

Definition cloner : PPTCloner :=
  {| template_path := lit "t.pptx";
     analysis := analysis_of (H := ascii_lower) template [cover; body; closing] |}.

(** [ppt_cloner.py create t.pptx <plan> <output>] *)
Definition create (plan output : string) : list str :=
  [lit "ppt_cloner.py"; lit "create"; lit "t.pptx"; lit plan; lit output].

(** A slide on which the text of one shape spells the named-shape key of
    another. *)
Definition named : Pptx.slide :=
  Pptx.Slide None [textbox "Title" "Old Title"; textbox "Body" "shape:Title"].

End Sample.

(* ===================================================================== *)
(** * Part II: proofs *)
(* ===================================================================== *)

(** ** Strings *)

Lemma startswith_spec (s p : str) : startswith s p = true ↔ ∃ r, s = p ++ r.
Proof.
  revert s. induction p as [|a p IH]; intros s; simpl.
  - split; [eauto|done].
  - destruct s as [|b s].
    + split; [done|]. intros [r Hr]. discriminate.
    + rewrite andb_true_iff, bool_decide_eq_true, IH. split.
      * intros [-> [r ->]]. eauto.
      * intros [r Hr]. injection Hr as -> ->. eauto.
Qed.


(** [sub in s] holds exactly when [s] splits around a copy of [sub]. *)
Lemma contains_spec (sub s : str) :
  contains sub s = true ↔ ∃ a b, s = a ++ sub ++ b.
Proof.
  induction s as [|c s IH]; simpl.
  - rewrite orb_false_r, startswith_spec. split.
    + intros [r Hr]. exists [], r. done.
    + intros (a & b & Hab). destruct a; [|discriminate].
      simpl in Hab. eauto.
  - rewrite orb_true_iff, startswith_spec, IH. split.
    + intros [[r Hr]|(a & b & ->)].
      * exists [], r. done.
      * exists (c :: a), b. done.
    + intros (a & b & Hab). destruct a as [|x a]; simpl in Hab.
      * left. eauto.
      * right. injection Hab as -> ->. eauto.
Qed.

Lemma contains_empty (s : str) : contains [] s = true.
Proof. apply contains_spec. exists [], s. done. Qed.


Lemma replace_from_absent (old new s : str) :
  contains old s = false → replace_from old new 0 s = s.
Proof.
  induction s as [|c s IH]; [done|]. cbn [contains replace_from].
  intros [Hs Hc]%orb_false_elim. rewrite Hs. f_equal. auto.
Qed.



Lemma contains_occurs (k s : str) : contains k s = true ↔ occurs k s.
Proof. apply contains_spec. Qed.




Lemma replace_absent (old new s : str) : ¬ occurs old s → replace s old new = s.
Proof.
  intros Hno. destruct old as [|c old].
  - destruct Hno. exists [], s. done.
  - unfold replace. apply replace_from_absent, not_true_is_false.
    by rewrite contains_occurs.
Qed.







(** ** Stripping and digits *)

Lemma lstrip_head (s r : str) (c : N) : lstrip s = c :: r → isspace c = false.
Proof.
  induction s as [|x s IH]; [done|]. simpl.
  destruct (isspace x) eqn:Hx; [done|]. by intros [= <- _].
Qed.

Lemma rstrip_last (s : str) (c : N) : last (rstrip s) = Some c → isspace c = false.
Proof.
  unfold rstrip. rewrite last_reverse.
  destruct (lstrip (reverse s)) as [|x r] eqn:Hl; [done|].
  intros [= <-]. by eapply lstrip_head.
Qed.

Lemma strip_last (s : str) (c : N) : last (strip s) = Some c → isspace c = false.
Proof. apply rstrip_last. Qed.

Lemma after_digits_nil (s : str) :
  after_digits s = [] ↔ Forall (λ c, is_digit c = true) s.
Proof.
  induction s as [|c s IH]; simpl.
  - split; [constructor|done].
  - destruct (is_digit c) eqn:Hc.
    + rewrite IH. split; [by constructor|by inversion 1].
    + split; [done|]. inversion 1. congruence.
Qed.

Lemma after_digits_last (s r : str) (c : N) :
  after_digits s = r ++ [c] → last s = Some c.
Proof.
  induction s as [|x s IH]; simpl.
  - by destruct r.
  - destruct (is_digit x).
    + intros Hs. specialize (IH Hs). destruct s; [done|]. done.
    + intros ->. by rewrite last_snoc.
Qed.

Lemma end_of_digits (r : str) :
  match r with [] => true | [10%N] => true | _ => false end = true →
  r = [] ∨ r = [10%N].
Proof.
  destruct r as [|x r]; [by left|]. intros Hr. right.
  destruct x as [|p]; [done|].
  repeat (destruct p as [p|p|]; try done).
  by destruct r.
Qed.

Lemma match_digits_stripped (s : str) :
  match_digits (strip s) = true ↔ numeric_token (strip s).
Proof.
  unfold numeric_token. pose proof (strip_last s) as Hlast.
  destruct (strip s) as [|c t]; simpl.
  - split; [done|]. by intros [? _].
  - rewrite andb_true_iff. split.
    + intros [Hc Ht]. split; [done|]. constructor; [done|].
      apply after_digits_nil.
      apply end_of_digits in Ht as [Ha|Ha]; [done|].
      apply (after_digits_last _ []) in Ha.
      assert (last (c :: t) = Some 10%N) as Hl by (by destruct t).
      by apply Hlast in Hl.
    + intros [_ Hall]. inversion Hall as [|? ? Hc Ht]; subst.
      split; [done|]. apply after_digits_nil in Ht. by rewrite Ht.
Qed.

Lemma is_number_text_spec (t : str * str) :
  is_number_text t = true ↔ numeric_token (strip t.2).
Proof.
  unfold is_number_text. cbv zeta. rewrite orb_true_iff, match_digits_stripped.
  split; [|by left]. intros [Hn|Hin]; [done|].
  apply bool_decide_eq_true in Hin. unfold divider_numbers in Hin.
  set_unfold in Hin.
  destruct Hin as [->|[->|[->|[->|[->|[]]]]]];
    (split; [done|repeat constructor]).
Qed.

Lemma any_in_spec (keywords : list str) (s : str) :
  any_in keywords s = true ↔ ∃ k, k ∈ keywords ∧ occurs k s.
Proof.
  unfold any_in. rewrite existsb_exists. setoid_rewrite contains_occurs.
  by setoid_rewrite list_elem_of_In.
Qed.

Section category_proofs.
Context `{Unicode}.

Lemma few_texts_with_number_spec (info : SlideInfo) :
  bool_decide (length (info_text_elements info) ≤ 4)%nat
    && existsb is_number_text (info_text_elements info) = true
  ↔ few_texts_with_number info.
Proof.
  unfold few_texts_with_number.
  rewrite andb_true_iff, bool_decide_eq_true, existsb_exists.
  setoid_rewrite is_number_text_spec. by setoid_rewrite list_elem_of_In.
Qed.

(** C4, as amended.  [_infer_slide_type] returns the category the rules
    give in their order of precedence: position 0 is a cover whatever the
    slide holds; else a cover or section keyword in the layout name decides;
    else a table-of-contents or closing keyword in the joined text; else a
    slide of at most four text elements, one of them a numeric token of
    whatever length (a non-empty string of ASCII or full-width digits once
    trimmed), is a divider; else the slide is content.  The category is a
    function of the summary and the position alone. *)
Theorem infer_slide_type_precedence (info : SlideInfo) (idx : Z) (total : nat) (c : str) :
  category_of info idx c ↔ _infer_slide_type info idx total = c.
Proof.
  unfold _infer_slide_type. cbv zeta.
  pose proof (any_in_spec cover_keywords (lower (info_layout_name info))) as Hcover.
  pose proof (any_in_spec divider_keywords (lower (info_layout_name info))) as Hdiv.
  pose proof (any_in_spec toc_keywords
    (join (lit " ") ((λ t, lower t.2) <$> info_text_elements info))) as Htoc.
  pose proof (any_in_spec ending_keywords
    (join (lit " ") ((λ t, lower t.2) <$> info_text_elements info))) as Hend.
  pose proof (few_texts_with_number_spec info) as Hnum.
  fold (layout_matches cover_keywords info) in Hcover.
  fold (layout_matches divider_keywords info) in Hdiv.
  fold (text_matches toc_keywords info) in Htoc.
  fold (text_matches ending_keywords info) in Hend.
  destruct (bool_decide (idx = 0)) eqn:Hidx;
    [apply bool_decide_eq_true in Hidx|apply bool_decide_eq_false in Hidx].
  { split; [by inversion 1|intros <-; by constructor]. }
  destruct (any_in cover_keywords _).
  { split; [|intros <-; apply category_layout_cover; tauto].
    inversion 1; try done; tauto. }
  destruct (any_in divider_keywords _).
  { split; [|intros <-; apply category_layout_section; intuition congruence].
    inversion 1; try done; intuition congruence. }
  destruct (any_in toc_keywords _).
  { split; [|intros <-; apply category_text_toc; intuition congruence].
    inversion 1; try done; intuition congruence. }
  destruct (any_in ending_keywords _).
  { split; [|intros <-; apply category_text_ending; intuition congruence].
    inversion 1; try done; intuition congruence. }
  destruct (_ && _).
  { split; [|intros <-; apply category_number; intuition congruence].
    inversion 1; try done; intuition congruence. }
  split; [|intros <-; apply category_default; intuition congruence].
  inversion 1; try done; intuition congruence.
Qed.

End category_proofs.

(** ** The monad *)

Lemma bind_ok {A B} (m : M A) (f : A → M B) (w w' : world) (a : A) :
  m w = (Ok a, w') → (m ≫= f) w = f a w'.
Proof. unfold mbind, M_bind. by intros ->. Qed.

Lemma bind_raise {A B} (m : M A) (f : A → M B) (w w' : world) (e : exn) :
  m w = (Raise e, w') → (m ≫= f) w = (Raise e, w').
Proof. unfold mbind, M_bind. by intros ->. Qed.

Lemma bind_case {A B} (m : M A) (f : A → M B) (w : world) :
  (∃ a w', m w = (Ok a, w') ∧ (m ≫= f) w = f a w') ∨
  (∃ e w', m w = (Raise e, w') ∧ (m ≫= f) w = (Raise e, w')).
Proof.
  destruct (m w) as [[a|e] w'] eqn:Hm.
  - left. exists a, w'. split; [done|]. by apply bind_ok.
  - right. exists e, w'. split; [done|]. by apply bind_raise.
Qed.

Lemma quiet_ret {A} (a : A) : quiet (mret a).
Proof. intros w. split; [done|]. exists []. by rewrite app_nil_r. Qed.

Lemma quiet_lift {A} (r : result A) : quiet (lift r).
Proof. intros w. split; [done|]. exists []. by rewrite app_nil_r. Qed.

Lemma quiet_raise {A} (e : exn) : quiet (raise (A:=A) e).
Proof. intros w. split; [done|]. exists []. by rewrite app_nil_r. Qed.

Lemma quiet_log (c : call) : document_call c → quiet (log c).
Proof. intros Hc w. split; [done|]. exists [c]. split; [done|]. by apply Forall_singleton. Qed.

Lemma quiet_bind {A B} (m : M A) (f : A → M B) :
  quiet m → (∀ a, quiet (f a)) → quiet (m ≫= f).
Proof.
  intros Hm Hf w. destruct (Hm w) as (Hfiles & cs & Hcalls & Hcs).
  destruct (bind_case m f w) as [(a & w' & Hw & ->)|(e & w' & Hw & ->)];
    rewrite Hw in Hfiles, Hcalls; simpl in Hfiles, Hcalls.
  - destruct (Hf a w') as (Hfiles' & cs' & Hcalls' & Hcs').
    split; [congruence|]. exists (cs ++ cs').
    split; [|by apply Forall_app]. rewrite Hcalls', Hcalls. by rewrite <-app_assoc.
  - split; [done|]. by exists cs.
Qed.

Lemma quiet_for {A S} (l : list A) (body : A → S → M S) (s : S) :
  (∀ x s, quiet (body x s)) → quiet (for_ l body s).
Proof.
  intros Hbody. revert s. induction l as [|x l IH]; intros s; simpl.
  - apply quiet_ret.
  - apply quiet_bind; [done|]. intros s'. apply IH.
Qed.

Lemma quiet_path_exists (path : str) : quiet (path_exists path).
Proof. intros w. split; [done|]. exists []. by rewrite app_nil_r. Qed.

Lemma quiet_Presentation (path : str) : quiet (Presentation path).
Proof.
  intros w. unfold Presentation.
  destruct (files w !! path) as [[]|]; (split; [done|]);
    exists []; by rewrite app_nil_r.
Qed.

Lemma quiet_load_plan (path : str) : quiet (load_plan path).
Proof.
  intros w. unfold load_plan.
  destruct (files w !! path) as [[]|]; (split; [done|]);
    exists []; by rewrite app_nil_r.
Qed.

Lemma quiet_delete_slide (idx : Z) (prs : Pptx.presentation) :
  quiet (delete_slide idx prs).
Proof.
  unfold delete_slide.
  repeat (first [apply quiet_bind; [|intros ?] | apply quiet_lift
                | by apply quiet_log]).
Qed.

Lemma quiet_replace_on_slide (new_idx : Z) (d : result dict)
    (prs : Pptx.presentation) :
  quiet (replace_on_slide new_idx d prs).
Proof.
  unfold replace_on_slide.
  apply quiet_bind; [apply quiet_lift|]. intros [rId sl].
  repeat (first [apply quiet_bind; [|intros ?] | apply quiet_lift
                | apply quiet_ret | by apply quiet_log]).
Qed.

Lemma quiet_prune_simple (slide_indices : list Z) (prs : Pptx.presentation) :
  quiet (prune_simple slide_indices prs).
Proof. apply quiet_for. intros. apply quiet_delete_slide. Qed.

Lemma quiet_substitute_simple (slide_indices : list Z) (replacements_list : list dict)
    (prs : Pptx.presentation) :
  quiet (substitute_simple slide_indices replacements_list prs).
Proof.
  apply quiet_for. intros [i old_idx] prs'. unfold replace_entry.
  destruct (_ !! old_idx); [|apply quiet_ret].
  case_bool_decide; [apply quiet_replace_on_slide|apply quiet_ret].
Qed.

Section quiet_analysis.
Context `{Unicode}.

Lemma quiet_analyze_template (path : str) : quiet (_analyze_template path).
Proof.
  unfold _analyze_template.
  apply quiet_bind; [apply quiet_Presentation|]. intros prs.
  apply quiet_bind; [apply quiet_lift|]. intros sls. apply quiet_ret.
Qed.

Lemma quiet_PPTCloner_init (path : str) : quiet (PPTCloner_init path).
Proof.
  unfold PPTCloner_init.
  apply quiet_bind; [apply quiet_path_exists|]. intros [|]; simpl.
  - apply quiet_bind; [apply quiet_analyze_template|]. intros a. apply quiet_ret.
  - apply quiet_raise.
Qed.

End quiet_analysis.

(** A quiet computation followed by [save] saves last. *)
Lemma saved_last_intro {A} (m : M Pptx.presentation) (output_path : str) (a : A)
    (w : world) :
  quiet m →
  saved_last output_path w ((prs ← m; save prs output_path;; mret a) w).
Proof.
  intros Hm. destruct (Hm w) as (Hfiles & cs & Hcalls & Hcs).
  unfold saved_last.
  destruct (bind_case m (λ prs, save prs output_path;; mret a) w)
    as [(prs & w' & Hw & ->)|(e & w' & Hw & ->)];
    rewrite Hw in Hfiles, Hcalls; simpl in Hfiles, Hcalls; simpl.
  - exists prs, cs. by rewrite Hfiles, Hcalls, <-app_assoc.
  - split; [done|]. by exists cs.
Qed.

Lemma saved_last_bind {A B} (m : M A) (f : A → M B) (output_path : str) (w : world) :
  quiet m →
  (∀ a w', saved_last output_path w' (f a w')) →
  saved_last output_path w ((m ≫= f) w).
Proof.
  intros Hm Hf. destruct (Hm w) as (Hfiles & cs & Hcalls & Hcs).
  destruct (bind_case m f w) as [(a & w' & Hw & ->)|(e & w' & Hw & ->)];
    rewrite Hw in Hfiles, Hcalls; simpl in Hfiles, Hcalls.
  - specialize (Hf a w'). unfold saved_last in *.
    destruct (f a w').1.
    + destruct Hf as (prs & cs' & Hfiles' & Hcalls' & Hcs').
      exists prs, (cs ++ cs'). rewrite Hfiles', Hcalls', Hfiles, Hcalls.
      split_and!; [done|by rewrite <-!app_assoc|by apply Forall_app].
    + destruct Hf as (Hfiles' & cs' & Hcalls' & Hcs').
      split; [congruence|]. exists (cs ++ cs').
      rewrite Hcalls', Hcalls, <-app_assoc. split; [done|by apply Forall_app].
  - unfold saved_last. simpl. split; [done|]. by exists cs.
Qed.

Lemma saved_last_save {A} (prs : Pptx.presentation) (output_path : str) (a : A) (w : world) :
  saved_last output_path w ((save prs output_path;; mret a) w).
Proof. exists prs, []. by rewrite app_nil_l. Qed.

Lemma create_simple_saved_last (self : PPTCloner) (slide_indices : list Z)
    (replacements_list : list dict) (output_path : str) (w : world) :
  saved_last output_path w
    (create_simple self slide_indices replacements_list output_path w).
Proof.
  unfold create_simple.
  apply saved_last_bind; [apply quiet_Presentation|]. intros prs w1.
  apply saved_last_bind; [apply quiet_prune_simple|]. intros prs1 w2.
  apply saved_last_bind; [apply quiet_substitute_simple|]. intros prs2 w3.
  apply saved_last_save.
Qed.

Lemma create_from_plan_saved_last (self : PPTCloner) (content_plan : list plan_item)
    (output_path : str) (w : world) :
  saved_last output_path w (create_from_plan self content_plan output_path w).
Proof.
  unfold create_from_plan.
  apply saved_last_bind; [apply quiet_Presentation|]. intros prs w1. cbv zeta.
  apply saved_last_bind.
  { apply quiet_for. intros. apply quiet_delete_slide. }
  intros prs1 w2. apply saved_last_bind.
  { apply quiet_for. intros item prs'.
    destruct (_ !! item.1); [apply quiet_replace_on_slide|apply quiet_ret]. }
  intros prs2 w3. apply saved_last_save.
Qed.

(** C8.  [create_simple] and [create_from_plan] write the output file as
    their last step, after the deletions and the replacements: a run that
    raises has written no file, and a run that returns has written the output
    path and nothing else. *)
Theorem output_saved_last (self : PPTCloner) (slide_indices : list Z)
    (replacements_list : list dict) (content_plan : list plan_item)
    (output_path : str) (w : world) :
  saved_last output_path w
    (create_simple self slide_indices replacements_list output_path w) ∧
  saved_last output_path w
    (create_from_plan self content_plan output_path w).
Proof.
  split; [apply create_simple_saved_last|apply create_from_plan_saved_last].
Qed.

(** ** What a run may write *)

Lemma touches_quiet {A} (out : option str) (m : M A) : quiet m → touches_only out m.
Proof. intros Hm w p _. by destruct (Hm w) as [-> _]. Qed.

Lemma touches_bind {A B} (out : option str) (m : M A) (f : A → M B) :
  touches_only out m → (∀ a, touches_only out (f a)) → touches_only out (m ≫= f).
Proof.
  intros Hm Hf w p Hp. specialize (Hm w p Hp).
  destruct (bind_case m f w) as [(a & w' & Hw & ->)|(e & w' & Hw & ->)];
    rewrite Hw in Hm; simpl in Hm; [|done].
  by rewrite (Hf a w' p Hp).
Qed.

Lemma touches_saved_last {A} (output_path : str) (m : M A) :
  (∀ w, saved_last output_path w (m w)) → touches_only (Some output_path) m.
Proof.
  intros Hm w p Hp. specialize (Hm w). unfold saved_last in Hm.
  destruct (m w).1.
  - destruct Hm as (prs & cs & -> & _). apply lookup_insert_ne. congruence.
  - by destruct Hm as [-> _].
Qed.

Lemma touches_create_simple (self : PPTCloner) (slide_indices : list Z)
    (replacements_list : list dict) (output_path : str) :
  touches_only (Some output_path)
    (create_simple self slide_indices replacements_list output_path).
Proof.
  apply touches_saved_last, create_simple_saved_last.
Qed.

Lemma touches_create_from_plan (self : PPTCloner) (content_plan : list plan_item)
    (output_path : str) :
  touches_only (Some output_path) (create_from_plan self content_plan output_path).
Proof.
  apply touches_saved_last, create_from_plan_saved_last.
Qed.

Lemma touches_export_analysis (self : PPTCloner) (output_path : str) :
  touches_only (Some output_path) (export_analysis self output_path).
Proof. intros w p Hp. apply lookup_insert_ne. congruence. Qed.

Lemma touches_bind_ok {A B} (out : option str) (a : A) (f : A → M B) :
  touches_only out (f a) → touches_only out (lift (Ok a) ≫= f).
Proof. done. Qed.

Lemma arg_lookup (argv : list str) (i : nat) (w : world) :
  arg argv i w = (from_option IndexError (argv !! i), w).
Proof. done. Qed.

Lemma quiet_arg (argv : list str) (i : nat) : quiet (arg argv i).
Proof. apply quiet_lift. Qed.

Section main_proofs.
Context `{Unicode}.

Lemma touches_main (argv : list str) : touches_only (output_argument argv) (main argv).
Proof.
  unfold main, output_argument.
  destruct argv as [|a0 [|command rest]];
    [rewrite bool_decide_eq_true_2 by (simpl; lia); apply touches_quiet, quiet_raise..|].
  rewrite bool_decide_eq_false_2 by (simpl; lia).
  apply (touches_bind_ok _ command). cbn [lookup list_lookup].
  destruct (decide (command = lit "analyze")) as [Hanalyze|Hanalyze].
  { rewrite !(bool_decide_eq_true_2 (command = _)) by done.
    destruct rest as [|template rest].
    { rewrite bool_decide_eq_true_2 by (simpl; lia). apply touches_quiet, quiet_raise. }
    rewrite bool_decide_eq_false_2 by (simpl; lia).
    apply (touches_bind_ok _ template). cbv zeta.
    apply touches_bind; [apply touches_quiet, quiet_PPTCloner_init|]. intros cloner.
    destruct rest as [|[|c path] rest].
    - rewrite bool_decide_eq_false_2 by (simpl; lia). apply touches_quiet, quiet_ret.
    - rewrite bool_decide_eq_true_2 by (simpl; lia). apply touches_quiet, quiet_ret.
    - rewrite bool_decide_eq_true_2 by (simpl; lia). apply touches_export_analysis. }
  rewrite !(bool_decide_eq_false_2 (command = lit "analyze")) by done.
  destruct (decide (command = lit "create")) as [Hcreate|Hcreate].
  2:{ rewrite !(bool_decide_eq_false_2 (command = _)) by done.
      apply touches_quiet, quiet_raise. }
  rewrite !(bool_decide_eq_true_2 (command = _)) by done.
  destruct rest as [|template [|plan_path [|output_path rest]]];
    [rewrite bool_decide_eq_true_2 by (simpl; lia); apply touches_quiet, quiet_raise..|].
  rewrite bool_decide_eq_false_2 by (simpl; lia).
  apply (touches_bind_ok _ template), (touches_bind_ok _ plan_path),
    (touches_bind_ok _ output_path).
  apply touches_bind; [apply touches_quiet, quiet_load_plan|]. intros plan.
  apply touches_bind; [apply touches_quiet, quiet_PPTCloner_init|]. intros cloner.
  destruct plan as [content_plan|]; [|apply touches_quiet, quiet_raise].
  cbv zeta. apply touches_bind; [apply touches_create_simple|]. intros ?.
  apply touches_quiet, quiet_ret.
Qed.

End main_proofs.

(** ** Analysis and the resolution of plan entries *)

Lemma enumerate_lookup {A} (l : list A) (i : nat) :
  enumerate l !! i = (λ x, (Z.of_nat i, x)) <$> l !! i.
Proof. exact (list_lookup_imap (λ i x, (Z.of_nat i, x)) l i). Qed.

Lemma related_slides_length (prs : Pptx.presentation) (rIds : list str) (sls : list Pptx.slide) :
  Pptx.related_slides prs rIds = Ok sls → length sls = length rIds.
Proof.
  revert sls. induction rIds as [|rId rIds IH]; intros sls; simpl.
  - by intros [= <-].
  - destruct (Pptx.related_slide prs rId); [|done].
    destruct (Pptx.related_slides prs rIds) as [sls'|]; [|done].
    intros [= <-]. simpl. f_equal. by apply IH.
Qed.

Lemma record_type_lookup (types : gmap str (list Z)) (info : SlideInfo) (ty : str) :
  default [] (record_type types info !! ty) =
  default [] (types !! ty) ++ (if decide (info_type info = ty) then [info_index info] else []).
Proof.
  unfold record_type. destruct (decide (info_type info = ty)) as [->|Hne].
  - by rewrite lookup_insert_eq.
  - rewrite lookup_insert_ne by done. by rewrite app_nil_r.
Qed.

Lemma slide_types_lookup (infos : list SlideInfo) (types : gmap str (list Z)) (ty : str) :
  default [] (fold_left record_type infos types !! ty) =
  default [] (types !! ty) ++
  (info_index <$> filter (λ info, info_type info = ty) infos).
Proof.
  revert types. induction infos as [|info infos IH]; intros types; simpl.
  - by rewrite app_nil_r.
  - rewrite IH, record_type_lookup, <-app_assoc. f_equal.
    rewrite filter_cons. by destruct (decide (info_type info = ty)).
Qed.

Lemma filter_none {A} (P : A → Prop) `{∀ x, Decision (P x)} (l : list A) :
  (∀ x, x ∈ l → ¬ P x) → filter P l = [].
Proof.
  induction l as [|x l IH]; [done|]. intros Hl.
  rewrite filter_cons_False by (apply Hl; left).
  apply IH. intros y Hy. apply Hl. by right.
Qed.

Lemma filter_head {A} (P : A → Prop) `{∀ x, Decision (P x)} (l : list A) (i : nat) (x : A) :
  l !! i = Some x → P x →
  (∀ j y, (j < i)%nat → l !! j = Some y → ¬ P y) →
  head (filter P l) = Some x.
Proof.
  revert i. induction l as [|y l IH]; intros i; [done|].
  destruct i as [|i]; simpl.
  - intros [= ->] Hx _. by rewrite filter_cons_True.
  - intros Hi Hx Hmin. rewrite filter_cons_False by (apply (Hmin 0%nat); [lia|done]).
    apply (IH i); [done..|]. intros j z Hj Hz. apply (Hmin (S j)); [lia|done].
Qed.

Section resolve.
Context `{Unicode}.

Lemma PPTCloner_init_ok (path : str) (w : world) (prs : Pptx.presentation)
    (sls : list Pptx.slide) :
  files w !! path = Some (FilePptx prs) → Pptx.slides prs = Ok sls →
  PPTCloner_init path w =
    (Ok {| template_path := path; analysis := analysis_of prs sls |}, w).
Proof.
  intros Hfile Hsls. unfold PPTCloner_init.
  erewrite bind_ok; last first.
  { unfold path_exists. rewrite Hfile. reflexivity. }
  rewrite bool_decide_eq_true_2 by eauto. simpl.
  erewrite bind_ok; last first.
  { unfold _analyze_template. erewrite bind_ok; last first.
    { unfold Presentation. rewrite Hfile. reflexivity. }
    rewrite Hsls. reflexivity. }
  reflexivity.
Qed.

Lemma PPTCloner_init_missing (path : str) (w : world) :
  files w !! path = None → PPTCloner_init path w = (Raise FileNotFoundError, w).
Proof.
  intros Hfile. unfold PPTCloner_init.
  erewrite bind_ok; last first.
  { unfold path_exists. rewrite Hfile. reflexivity. }
  rewrite bool_decide_eq_false_2; [done|]. by intros [? ?].
Qed.

Lemma analysis_infos_lookup (prs : Pptx.presentation) (sls : list Pptx.slide) (i : nat) :
  slide_infos (analysis_of prs sls) !! i =
  (λ sl, _analyze_slide sl (Z.of_nat i) (Pptx.slides_len prs)) <$> sls !! i.
Proof.
  unfold analysis_of. simpl. rewrite list_lookup_fmap, enumerate_lookup.
  by destruct (sls !! i).
Qed.

Lemma get_slides_by_type_analysis (path : str) (prs : Pptx.presentation)
    (sls : list Pptx.slide) (ty : str) :
  get_slides_by_type {| template_path := path; analysis := analysis_of prs sls |} ty =
  info_index <$> filter (λ info, info_type info = ty) (slide_infos (analysis_of prs sls)).
Proof.
  unfold get_slides_by_type. cbn [analysis]. unfold analysis_of at 1.
  cbn [slide_types]. by rewrite slide_types_lookup, lookup_empty.
Qed.

Lemma earlier_slides (prs : Pptx.presentation) (sls : list Pptx.slide) (ty : str)
    (i j : nat) (info : SlideInfo) :
  (∀ j sl', (j < i)%nat → sls !! j = Some sl' →
     info_type (_analyze_slide sl' (Z.of_nat j) (Pptx.slides_len prs)) ≠ ty) →
  (j < i)%nat → slide_infos (analysis_of prs sls) !! j = Some info →
  info_type info ≠ ty.
Proof.
  intros Hmin Hj Hinfo. rewrite analysis_infos_lookup in Hinfo.
  destruct (sls !! j) as [sl'|] eqn:Hsl'; [|done].
  injection Hinfo as <-. by apply (Hmin j).
Qed.

(** C6.  A plan entry that names a category and no position resolves, with
    no error, to position 0 when no slide of the template has the category,
    and to the first slide that has it otherwise. *)
Theorem category_resolves_to_first (path : str) (w : world) (prs : Pptx.presentation)
    (sls : list Pptx.slide) (item : plan_item) :
  files w !! path = Some (FilePptx prs) →
  Pptx.slides prs = Ok sls →
  item_template_slide item = None →
  ∃ cloner, PPTCloner_init path w = (Ok cloner, w) ∧
    let slide_type := default (lit "content") (item_type item) in
    let category i sl :=
      info_type (_analyze_slide sl (Z.of_nat i) (Pptx.slides_len prs)) in
    ((∀ i sl, sls !! i = Some sl → category i sl ≠ slide_type) →
     resolve_template_idx cloner item = 0) ∧
    (∀ i sl, sls !! i = Some sl → category i sl = slide_type →
       (∀ j sl', (j < i)%nat → sls !! j = Some sl' → category j sl' ≠ slide_type) →
       resolve_template_idx cloner item = Z.of_nat i).
Proof.
  intros Hfile Hsls Hitem. eexists. split; [by apply PPTCloner_init_ok|].
  intros ty category. unfold resolve_template_idx.
  rewrite Hitem. fold ty. rewrite get_slides_by_type_analysis. split.
  - intros Hnone. rewrite filter_none; [done|].
    intros info [i Hi]%list_elem_of_lookup.
    rewrite analysis_infos_lookup in Hi.
    destruct (sls !! i) as [sl|] eqn:Hsl; [|done].
    injection Hi as <-. by apply (Hnone i).
  - intros i sl Hsl Hty Hmin.
    pose proof (filter_head (λ info, info_type info = ty)
      (slide_infos (analysis_of prs sls)) i
      (_analyze_slide sl (Z.of_nat i) (Pptx.slides_len prs))) as Hhead.
    rewrite analysis_infos_lookup, Hsl in Hhead.
    specialize (Hhead eq_refl Hty).
    destruct (filter _ _) as [|first rest].
    + exfalso. enough (None = Some (_analyze_slide sl (Z.of_nat i) (Pptx.slides_len prs))) by done.
      apply Hhead. intros j info Hj Hinfo. exact (earlier_slides prs sls ty i j info Hmin Hj Hinfo).
    + simpl in Hhead. cbn [fmap list_fmap].
      assert (Some first = Some (_analyze_slide sl (Z.of_nat i) (Pptx.slides_len prs))) as [= ->]; [|done].
      apply Hhead. intros j info Hj Hinfo. exact (earlier_slides prs sls ty i j info Hmin Hj Hinfo).
Qed.

End resolve.

(** ** Positions kept and deleted *)

Lemma kept_positions_S (n : nat) (L : list Z) :
  kept_positions (S n) L =
  kept_positions n L ++ (if decide (Z.of_nat n ∈ L) then [n] else []).
Proof.
  unfold kept_positions. rewrite seq_S, filter_app. by f_equal.
Qed.



Lemma elem_of_kept_positions (n : nat) (L : list Z) (i : nat) :
  i ∈ kept_positions n L ↔ (i < n)%nat ∧ Z.of_nat i ∈ L.
Proof.
  unfold kept_positions. rewrite list_elem_of_filter, elem_of_seq.
  split; [intros [? ?]|intros [? ?]]; split; (done || lia).
Qed.

Lemma NoDup_kept_positions (n : nat) (L : list Z) : NoDup (kept_positions n L).
Proof. apply NoDup_filter, NoDup_seq. Qed.




#[local] Instance Z_ge_transitive : Transitive Z.ge.
Proof. intros x y z. lia. Qed.
#[local] Instance Z_ge_antisymm : AntiSymm (=) Z.ge.
Proof. intros x y. lia. Qed.
#[local] Instance Z_ge_total : Total Z.ge.
Proof. intros x y. lia. Qed.

Lemma elem_of_to_delete (n : nat) (L : list Z) (x : Z) :
  x ∈ to_delete_simple n L ↔ (0 ≤ x < Z.of_nat n) ∧ x ∉ L.
Proof.
  unfold to_delete_simple, range.
  rewrite elem_of_difference, !elem_of_list_to_set, list_elem_of_fmap.
  setoid_rewrite elem_of_seq. split.
  - intros [(i & -> & Hi) Hx]. split; [lia|done].
  - intros [Hx HL]. split; [|done]. exists (Z.to_nat x). lia.
Qed.


(** ** Deleting from the end *)









(** ** The deletion loop *)

Lemma position_of_nat (n d : nat) : (d < n)%nat → position n (Z.of_nat d) = Some d.
Proof.
  intros Hd. unfold position.
  rewrite bool_decide_eq_true_2, bool_decide_eq_true_2 by lia.
  by rewrite Nat2Z.id.
Qed.


Lemma index_of_nat {A} (l : list A) (d : nat) :
  (d < length l)%nat → index l (Z.of_nat d) = l !! d.
Proof. intros Hd. unfold index. by rewrite position_of_nat. Qed.









(** ** The mapping of [create_simple] *)

Lemma number_sorted_fold (S : list Z) (m : gmap Z Z) (c : Z) :
  (fold_left number_sorted S (m, c)).2 = c + Z.of_nat (length S) ∧
  (∀ k, k ∈ S → ∃ j, (fold_left number_sorted S (m, c)).1 !! k = Some (c + j) ∧
                      0 ≤ j < Z.of_nat (length S)) ∧
  (∀ k, k ∉ S → (fold_left number_sorted S (m, c)).1 !! k = m !! k).
Proof.
  revert m c. induction S as [|x S IH]; intros m c.
  - simpl. split_and!; [lia| |done]. by intros k ?%not_elem_of_nil.
  - cbn [fold_left]. unfold number_sorted at 2 4 6. cbn [fst snd].
    destruct (IH (<[x:=c]> m) (c + 1)) as (Hc & Hin & Hout).
    split_and!.
    + rewrite Hc. simpl. lia.
    + intros k Hk. destruct (decide (k ∈ S)) as [HS|HS].
      * destruct (Hin k HS) as (j & Hj & Hlt). exists (j + 1).
        rewrite Hj. split; [f_equal; lia|simpl; lia].
      * apply elem_of_cons in Hk as [->|]; [|done].
        exists 0. rewrite Hout, lookup_insert_eq by done.
        split; [f_equal; lia|simpl; lia].
    + intros k Hk. apply not_elem_of_cons in Hk as [Hne HS].
      by rewrite Hout, lookup_insert_ne.
Qed.




(** ** The replacement loop *)




Section entries.
Context (old_to_new : gmap Z Z) (replacements_list : list dict).
Context (Hnonneg : ∀ k v, old_to_new !! k = Some v → 0 ≤ v).







End entries.



(** ** [create_simple] as a whole *)

Lemma Presentation_ok (path : str) (prs : Pptx.presentation) (w : world) :
  files w !! path = Some (FilePptx prs) → Presentation path w = (Ok prs, w).
Proof. intros Hfile. unfold Presentation. by rewrite Hfile. Qed.



Lemma enumerate_elem_of_inv {A} (l : list A) (i : Z) (x : A) :
  (i, x) ∈ enumerate l → x ∈ l.
Proof.
  intros [j Hj]%list_elem_of_lookup. rewrite enumerate_lookup in Hj.
  destruct (l !! j) eqn:Hl; [|done]. injection Hj as _ <-.
  by eapply list_elem_of_lookup_2.
Qed.








(** ** Substitution *)






(** The three rules of [_apply_replacements] on a text-bearing shape, the
    first that applies winning.  The second looks the trimmed text up among
    all the keys of the dictionary. *)
Lemma replace_shape_rules (d : dict) (sh : Pptx.shape) (tf : Pptx.text_frame) :
  Pptx.shape_text_frame sh = Some tf →
  match dict_get d (lit "shape:" ++ Pptx.shape_name sh) with
  | Some v => replace_shape d sh = Pptx.set_text sh v
  | None =>
      match dict_get d (strip (Pptx.text tf)) with
      | Some v => replace_shape d sh = Pptx.set_text sh v
      | None =>
          replace_shape d sh =
          Pptx.Shape (Pptx.shape_name sh)
            (Some ((λ p : Pptx.paragraph, replace_run d <$> p) <$> tf))
      end
  end.
Proof.
  intros Htf. unfold replace_shape. rewrite Htf. cbv zeta.
  destruct (dict_get d (lit "shape:" ++ Pptx.shape_name sh)); [done|].
  by destruct (dict_get d (strip (Pptx.text tf))).
Qed.

(** A shape that bears no text is left as it is. *)
Lemma replace_shape_no_text (d : dict) (sh : Pptx.shape) :
  Pptx.shape_text_frame sh = None → replace_shape d sh = sh.
Proof. intros Htf. unfold replace_shape. by rewrite Htf. Qed.


Lemma related_slides_ok (prs : Pptx.presentation) (rIds : list str) :
  (∀ rId, rId ∈ rIds → is_Some (Pptx.rels prs !! rId)) ↔
  ∃ sls, Pptx.related_slides prs rIds = Ok sls.
Proof.
  induction rIds as [|rId rIds IH]; simpl.
  - split; [by exists []|]. by intros _ r ?%not_elem_of_nil.
  - unfold Pptx.related_slide. split.
    + intros Hall. destruct (Hall rId) as [sl ->]; [by left|]. simpl.
      destruct IH as [[sls ->] _]; [|by eauto].
      intros r Hr. apply Hall. by right.
    + intros [sls Hsls] r Hr.
      destruct (Pptx.rels prs !! rId) as [sl|] eqn:Hsl; [|done]. simpl in Hsls.
      destruct (Pptx.related_slides prs rIds) as [sls'|] eqn:Hrest; [|done].
      apply elem_of_cons in Hr as [->|Hr]; [by eauto|].
      destruct IH as [_ IH]. apply IH; by eauto.
Qed.

(** A document is well formed exactly when its slides can be listed. *)
Lemma well_formed_slides (prs : Pptx.presentation) :
  well_formed prs ↔ ∃ sls, Pptx.slides prs = Ok sls.
Proof. apply related_slides_ok. Qed.

(** ** Exit status *)

Lemma bind_arg {B} (argv : list str) (i : nat) (a : str) (f : str → M B) (w : world) :
  argv !! i = Some a → (arg argv i ≫= f) w = f a w.
Proof. intros Ha. unfold arg. by rewrite Ha. Qed.

Section exit_status.
Context `{Unicode}.

Lemma main_too_few (argv : list str) (w : world) :
  (length argv < 2)%nat → main argv w = (Raise (SystemExit 1), w).
Proof. intros Hlen. unfold main. by rewrite bool_decide_eq_true_2. Qed.

Lemma main_command (a0 command : str) (rest : list str) (w : world) :
  main (a0 :: command :: rest) w =
  (if bool_decide (command = lit "analyze") then
     if bool_decide (length (a0 :: command :: rest) < 3)%nat then sys_exit 1
     else
       template_path ← arg (a0 :: command :: rest) 2;
       let output_json :=
         if bool_decide (3 < length (a0 :: command :: rest))%nat
         then (a0 :: command :: rest) !! 3%nat else None in
       cloner ← PPTCloner_init template_path;
       match output_json with
       | Some ((_ :: _) as path) => export_analysis cloner path
       | _ => mret tt
       end
   else if bool_decide (command = lit "create") then
     if bool_decide (length (a0 :: command :: rest) < 5)%nat then sys_exit 1
     else
       template_path ← arg (a0 :: command :: rest) 2;
       plan_path ← arg (a0 :: command :: rest) 3;
       output_path ← arg (a0 :: command :: rest) 4;
       content_plan ← load_plan plan_path;
       cloner ← PPTCloner_init template_path;
       match content_plan with
       | PlanList content_plan =>
           let slide_indices := resolve_template_idx cloner <$> content_plan in
           let replacements_list :=
             (λ item, default [] (item_replacements item)) <$> content_plan in
           create_simple cloner slide_indices replacements_list output_path;;
           mret tt
       | PlanObject => raise AttributeError
       end
   else sys_exit 1) w.
Proof. unfold main. by rewrite bool_decide_eq_false_2 by (simpl; lia). Qed.

Lemma exit_status_raise_init {B} (template : str) (f : PPTCloner → M B) (w : world) :
  files w !! template = None →
  exit_status ((PPTCloner_init template ≫= f) w).1 = 1.
Proof.
  intros Hfile.
  by rewrite (bind_raise _ _ _ _ _ (PPTCloner_init_missing template w Hfile)).
Qed.

Lemma exit_status_load_then_init {B} (plan_path template : str)
    (f : plan_json → PPTCloner → M B) (w : world) :
  files w !! template = None →
  exit_status ((plan ← load_plan plan_path;
                cloner ← PPTCloner_init template; f plan cloner) w).1 = 1.
Proof.
  intros Hfile. unfold load_plan at 1. unfold mbind at 1, M_bind at 1.
  destruct (files w !! plan_path) as [[]|]; try done;
    by apply exit_status_raise_init.
Qed.

(** C9.  The process exits with status 1 when arguments are missing or too
    few, when the template file does not exist, and when the command is
    unknown; it exits with status 0 when [main] returns, as it does after an
    analysis of a well-formed template. *)
Theorem exit_status_of_main (argv : list str) (w : world) :
  let status := exit_status (main argv w).1 in
  ((length argv < 2)%nat → status = 1) ∧
  (argv !! 1%nat = Some (lit "analyze") → (length argv < 3)%nat → status = 1) ∧
  (argv !! 1%nat = Some (lit "create") → (length argv < 5)%nat → status = 1) ∧
  (∀ template, argv !! 2%nat = Some template → files w !! template = None →
     status = 1) ∧
  (∀ command, argv !! 1%nat = Some command →
     command ≠ lit "analyze" → command ≠ lit "create" → status = 1) ∧
  ((main argv w).1 = Ok () → status = 0) ∧
  (∀ template prs, argv !! 1%nat = Some (lit "analyze") →
     argv !! 2%nat = Some template →
     files w !! template = Some (FilePptx prs) → well_formed prs →
     (main argv w).1 = Ok ()).
Proof.
  intros status. subst status. split_and!.
  - intros Hlen. by rewrite main_too_few.
  - intros Hcmd Hlen. destruct argv as [|a0 [|command rest]]; [done..|].
    injection Hcmd as ->. rewrite main_command.
    by rewrite bool_decide_eq_true_2, bool_decide_eq_true_2.
  - intros Hcmd Hlen. destruct argv as [|a0 [|command rest]]; [done..|].
    injection Hcmd as ->. rewrite main_command.
    by rewrite bool_decide_eq_false_2, bool_decide_eq_true_2, bool_decide_eq_true_2.
  - intros template Htemplate Hfile.
    destruct argv as [|a0 [|command [|template' rest]]]; [done..|].
    injection Htemplate as ->. rewrite main_command.
    case_bool_decide as Hanalyze.
    { rewrite bool_decide_eq_false_2 by (simpl; lia).
      rewrite (bind_arg _ 2 template) by done. by apply exit_status_raise_init. }
    case_bool_decide as Hcreate; [|done].
    case_bool_decide as Hlen; [done|].
    destruct rest as [|plan_path [|output_path rest]]; [simpl in Hlen; lia..|].
    rewrite (bind_arg _ 2 template), (bind_arg _ 3 plan_path),
      (bind_arg _ 4 output_path) by done.
    by apply (exit_status_load_then_init plan_path template
      (λ content_plan cloner,
         match content_plan with
         | PlanList content_plan =>
             create_simple cloner (resolve_template_idx cloner <$> content_plan)
               ((λ item, default [] (item_replacements item)) <$> content_plan)
               output_path;;
             mret tt
         | PlanObject => raise AttributeError
         end)).
  - intros command Hcmd Hanalyze Hcreate.
    destruct argv as [|a0 [|command' rest]]; [done..|].
    injection Hcmd as ->. rewrite main_command.
    by rewrite !bool_decide_eq_false_2.
  - by intros ->.
  - intros template prs Hcmd Htemplate Hfile Hwf.
    destruct argv as [|a0 [|command [|template' rest]]]; [done..|].
    injection Hcmd as ->. injection Htemplate as ->. rewrite main_command.
    rewrite bool_decide_eq_true_2, bool_decide_eq_false_2 by (done || simpl; lia).
    rewrite (bind_arg _ 2 template) by done. cbv zeta.
    destruct (proj1 (well_formed_slides prs) Hwf) as [sls Hsls].
    rewrite (bind_ok _ _ _ _ _ (PPTCloner_init_ok template w prs sls Hfile Hsls)).
    case_bool_decide; [|done]. by destruct (_ !! 3%nat) as [[|]|].
Qed.

(** C10, as amended.  The analysis writes no file, and [create_simple],
    [create_from_plan], [export_analysis] and [main] write no path but the
    output path they are given: every other path, and so the template when
    the output path is not the template's, holds after the run what it held
    before. *)
Theorem only_output_path_written :
  (∀ path w, files (PPTCloner_init path w).2 = files w) ∧
  (∀ self slide_indices replacements_list output_path w p,
     p ≠ output_path →
     files (create_simple self slide_indices replacements_list output_path w).2 !! p
       = files w !! p) ∧
  (∀ self content_plan output_path w p,
     p ≠ output_path →
     files (create_from_plan self content_plan output_path w).2 !! p = files w !! p) ∧
  (∀ self output_path w p,
     p ≠ output_path →
     files (export_analysis self output_path w).2 !! p = files w !! p) ∧
  (∀ argv w p,
     output_argument argv ≠ Some p → files (main argv w).2 !! p = files w !! p).
Proof.
  split_and!.
  - intros path w. by destruct (quiet_PPTCloner_init path w) as [-> _].
  - intros. apply touches_create_simple. congruence.
  - intros. apply touches_create_from_plan. congruence.
  - intros. apply touches_export_analysis. congruence.
  - intros. apply touches_main. congruence.
Qed.

End exit_status.

(** ** The example of the specification *)

(** On a template of a cover, a slide reading [Hello] and a closing
    slide, the plan that keeps positions 0 and 1 and maps [Hello] to [World]
    gives a document of two slides, the second reading [World]. *)
Example create_two_slides :
  let run := main (H := ascii_lower) (Sample.create "two.json" "out.pptx") Sample.world in
  run.1 = Ok () ∧
  texts_at run.2 (lit "out.pptx") = Some [[lit "Deck"]; [lit "World"]].
Proof. by vm_compute. Qed.

(** C1.  On a plan with two entries for position 0, [create_simple] numbers
    the sorted requests, not the surviving slides: position 0 is mapped to 1,
    the one surviving slide is never retrieved, the run ends with
    [IndexError] and no output.  [create_from_plan], which numbers the
    survivors, applies both dictionaries to the slide.  When the list of
    dictionaries is shorter than the list of positions, [create_simple] saves
    a document in which the dictionaries meant for position 0 have been
    applied to the slide of position 1. *)
Theorem create_simple_repeated_position :
  let run := main (H := ascii_lower) (Sample.create "repeated.json" "out.pptx") Sample.world in
  let sibling := create_from_plan Sample.cloner Sample.plan_repeated (lit "out.pptx") Sample.world in
  let short := create_simple Sample.cloner [0; 0; 1]
                 [[(lit "Deck", lit "A")]; [(lit "Hello", lit "X")]]
                 (lit "out.pptx") Sample.world in
  old_to_new_simple [0; 0] !! 0 = Some 1 ∧
  run.1 = Raise IndexError ∧
  texts_at run.2 (lit "out.pptx") = None ∧
  sibling.1 = Ok (lit "out.pptx") ∧
  texts_at sibling.2 (lit "out.pptx") = Some [[lit "B"]] ∧
  short.1 = Ok (lit "out.pptx") ∧
  texts_at short.2 (lit "out.pptx") = Some [[lit "Deck"]; [lit "X"]].
Proof. by vm_compute. Qed.

(** C3.  The key ["shape:Title"] replaces the text of the shape named
    [Title], and also the text of the shape named [Body], whose trimmed text
    is the key itself: the whole-text rule looks the text up among all the
    keys, named-shape keys included. *)
Theorem named_key_replaces_matching_text :
  let d := [(lit "shape:Title", lit "New Title")] in
  let after := _apply_replacements Sample.named d in
  omap (λ sh, Pptx.text <$> Pptx.shape_text_frame sh) (Pptx.shapes Sample.named)
    = [lit "Old Title"; lit "shape:Title"] ∧
  omap (λ sh, Pptx.text <$> Pptx.shape_text_frame sh) (Pptx.shapes after)
    = [lit "New Title"; lit "New Title"].
Proof. by vm_compute. Qed.

(** C4, as stated, fails: the number need not be short.  A slide whose one
    text is a number of twenty digits is a divider. *)
Lemma long_number_is_divider :
  let text := lit "12345678901234567890" in
  length text = 20%nat ∧
  _infer_slide_type (H := ascii_lower)
    {| info_index := 1; info_type := lit "content"; info_layout_name := lit "Blank";
       info_text_elements := [(lit "Number", text)];
       info_shape_count := 1; info_preview_text := text |}
    1 3 = lit "divider".
Proof. by vm_compute. Qed.

(** C10, as stated, fails: a run whose output path is the template path
    replaces the template, here of three slides, by the pruned document. *)
Lemma template_overwritten :
  let run := main (H := ascii_lower) (Sample.create "two.json" "t.pptx") Sample.world in
  run.1 = Ok () ∧
  slide_ids_at Sample.world (lit "t.pptx") = Some [lit "rId2"; lit "rId3"; lit "rId4"] ∧
  slide_ids_at run.2 (lit "t.pptx") = Some [lit "rId2"; lit "rId3"].
Proof. by vm_compute. Qed.

(** ** The theorems at the sample template *)

Lemma sample_well_formed : well_formed Sample.template.
Proof. apply (bool_decide_eq_true_1 _). vm_compute. reflexivity. Defined.

Lemma sample_file : files Sample.world !! lit "t.pptx" = Some (FilePptx Sample.template).
Proof. vm_compute. reflexivity. Defined.

(** A slide with the single text ["02"] on a blank layout is a divider. *)
Lemma infer_slide_type_precedence_witness :
  category_of (H := ascii_lower)
    {| info_index := 1; info_type := lit "content"; info_layout_name := lit "Blank";
       info_text_elements := [(lit "Number", lit "02")];
       info_shape_count := 1; info_preview_text := lit "02" |}
    1 (lit "divider").
Proof.
  apply (infer_slide_type_precedence (H := ascii_lower) _ 1 3 (lit "divider")).
  vm_compute. reflexivity.
Defined.



(** The closing slide is the first of category ["ending"]. *)
Lemma category_resolves_to_first_witness :
  ∃ cloner,
    PPTCloner_init (H := ascii_lower) (lit "t.pptx") Sample.world = (Ok cloner, Sample.world) ∧
    resolve_template_idx cloner (PlanItem None (Some (lit "ending")) None) = 2.
Proof.
  destruct (category_resolves_to_first (H := ascii_lower) (lit "t.pptx") Sample.world
              Sample.template [Sample.cover; Sample.body; Sample.closing]
              (PlanItem None (Some (lit "ending")) None))
    as (cloner & Hinit & _ & Hfirst).
  - vm_compute. reflexivity.
  - vm_compute. reflexivity.
  - reflexivity.
  - exists cloner. split; [exact Hinit|].
    apply (Hfirst 2%nat Sample.closing).
    + reflexivity.
    + vm_compute. reflexivity.
    + intros j sl' Hj Hsl'.
      destruct j as [|[|j]]; [| |lia]; injection Hsl' as <-; vm_compute; discriminate.
Defined.


Lemma output_saved_last_witness :
  saved_last (lit "out.pptx") Sample.world
    (create_simple Sample.cloner [0; 7] [[]; []] (lit "out.pptx") Sample.world).
Proof.
  apply (output_saved_last Sample.cloner [0; 7] [[]; []] [] (lit "out.pptx") Sample.world).
Defined.

(** An analysis of the sample template exits with status 0. *)
Lemma exit_status_of_main_witness :
  exit_status
    (main (H := ascii_lower) [lit "ppt_cloner.py"; lit "analyze"; lit "t.pptx"] Sample.world).1
  = 0.
Proof.
  destruct (exit_status_of_main (H := ascii_lower)
              [lit "ppt_cloner.py"; lit "analyze"; lit "t.pptx"] Sample.world)
    as (_ & _ & _ & _ & _ & Hok & Hanalyze).
  apply Hok. apply (Hanalyze (lit "t.pptx") Sample.template).
  - reflexivity.
  - reflexivity.
  - exact sample_file.
  - exact sample_well_formed.
Defined.

(** A run that saves elsewhere leaves the template as it was. *)
Lemma only_output_path_written_witness :
  files (main (H := ascii_lower) (Sample.create "two.json" "out.pptx") Sample.world).2
    !! lit "t.pptx"
  = files Sample.world !! lit "t.pptx".
Proof.
  destruct (only_output_path_written (H := ascii_lower)) as (_ & _ & _ & _ & Hmain).
  apply Hmain. vm_compute. discriminate.
Defined.


(** ** Setting the text of a shape *)









(** ** Distinct requests: the replacements reach their slides *)

Lemma kept_positions_ascending (n : nat) (L : list Z) :
  StronglySorted lt (kept_positions n L).
Proof.
  induction n as [|n IH]; [constructor|]. rewrite kept_positions_S.
  destruct (decide _); [|by rewrite app_nil_r].
  apply StronglySorted_app_2; [|done|repeat constructor].
  intros i j [Hi _]%elem_of_kept_positions ->%list_elem_of_singleton. done.
Qed.

(** Distinct requests in range, sorted, are the kept positions. *)
Lemma sorted_kept_positions (n : nat) (L : list Z) :
  NoDup L → (∀ x, x ∈ L → 0 ≤ x < Z.of_nat n) →
  sorted L = Z.of_nat <$> kept_positions n L.
Proof.
  intros Hnodup Hrange. apply (Sorted_unique Z.le).
  - apply (Sorted_merge_sort Z.le).
  - apply StronglySorted_Sorted.
    eapply StronglySorted_fmap; [|apply kept_positions_ascending].
    intros x y. lia.
  - unfold sorted. rewrite merge_sort_Permutation.
    apply NoDup_Permutation; [done|apply (NoDup_fmap_2 _), NoDup_kept_positions|].
    intros x. rewrite list_elem_of_fmap. setoid_rewrite elem_of_kept_positions. split.
    + intros Hx. exists (Z.to_nat x). specialize (Hrange x Hx).
      rewrite Z2Nat.id by lia. split_and!; [done|lia|done].
    + by intros (i & -> & _ & Hi).
Qed.

Lemma number_sorted_rank (S : list Z) (m : gmap Z Z) (c : Z) (j : nat) (x : Z) :
  NoDup S → S !! j = Some x →
  (fold_left number_sorted S (m, c)).1 !! x = Some (c + Z.of_nat j).
Proof.
  revert m c j. induction S as [|y S IH]; intros m c j Hnodup Hj; [done|].
  apply NoDup_cons in Hnodup as [Hy Hnodup]. cbn [fold_left].
  unfold number_sorted at 2. cbn [fst snd]. destruct j as [|j].
  - injection Hj as ->.
    destruct (number_sorted_fold S (<[x:=c]> m) (c + 1)) as (_ & _ & Hout).
    rewrite Hout, lookup_insert_eq by done. f_equal. lia.
  - rewrite (IH _ _ j) by done. f_equal. lia.
Qed.



Section distinct.
Context (L : list Z) (R : list dict) (ids : list str).
Context (Hnodup : NoDup L) (Hids : NoDup ids).
Context (Hrange : ∀ x, x ∈ L → 0 ≤ x < Z.of_nat (length ids)).



End distinct.


Lemma imap_pair_snd {A} (l : list A) : (imap pair l).*2 = l.
Proof.
  apply list_eq. intros i. rewrite list_lookup_fmap, list_lookup_imap.
  by destruct (l !! i).
Qed.

Lemma elem_of_imap_pair {A} (l : list A) (i : nat) (x : A) :
  (i, x) ∈ imap pair l ↔ l !! i = Some x.
Proof.
  rewrite list_elem_of_lookup. setoid_rewrite list_lookup_imap. split.
  - intros [j Hj]. destruct (l !! j) eqn:Hl; [|done]. by injection Hj as <- <-.
  - intros Hi. exists i. by rewrite Hi.
Qed.



(** ** [create_from_plan]: the mapping *)

Lemma indices_to_delete_simple (n : nat) (keep : list (Z * dict)) :
  indices_to_delete n keep = to_delete_simple n keep.*1.
Proof.
  unfold indices_to_delete, to_delete_simple. generalize (list_to_set (range n) : gset Z).
  induction keep as [|[x d] keep IH]; intros s; simpl.
  - by rewrite difference_empty_L.
  - by rewrite IH, difference_difference_l_L.
Qed.

Lemma range_S (n : nat) : range (S n) = range n ++ [Z.of_nat n].
Proof. unfold range. by rewrite seq_S, fmap_app. Qed.

Lemma kept_positions_lookup_lt (n : nat) (L : list Z) (i p : nat) :
  kept_positions n L !! i = Some p → (p < n)%nat ∧ Z.of_nat p ∈ L.
Proof. intros Hi%list_elem_of_lookup_2. by apply elem_of_kept_positions in Hi. Qed.

(** Scanning the positions below [n] and counting the survivors numbers the
    kept positions in ascending order. *)
Lemma number_kept_fold (N : nat) (L : list Z) (n : nat) :
  (n ≤ N)%nat →
  (fold_left (number_kept (to_delete_simple N L)) (range n) (∅, 0)).2
    = Z.of_nat (length (kept_positions n L)) ∧
  ∀ x j, (fold_left (number_kept (to_delete_simple N L)) (range n) (∅, 0)).1 !! x = Some j ↔
         ∃ i p, j = Z.of_nat i ∧ x = Z.of_nat p ∧ kept_positions n L !! i = Some p.
Proof.
  induction n as [|n IH]; intros Hn.
  - split; [done|]. intros x j. simpl. rewrite lookup_empty.
    split; [done|]. by intros (i & p & _ & _ & ?).
  - destruct IH as [Hcount Hmap]; [lia|].
    rewrite range_S, fold_left_app, kept_positions_S. cbn [fold_left].
    destruct (fold_left _ (range n) _) as [m c]. cbn [fst snd] in *. subst c.
    unfold number_kept. cbn [fst snd].
    destruct (decide (Z.of_nat n ∈ L)) as [Hin|Hout].
    + rewrite bool_decide_eq_true_2 by (rewrite elem_of_to_delete; tauto).
      cbn [fst snd]. rewrite length_app. split; [simpl; lia|].
      intros x j. destruct (decide (x = Z.of_nat n)) as [->|Hx].
      * rewrite lookup_insert_eq. split.
        -- intros [= <-]. exists (length (kept_positions n L)), n.
           split_and!; [done..|]. by rewrite lookup_app_r, Nat.sub_diag by lia.
        -- intros (i & p & -> & Hp & Hi). apply Nat2Z.inj in Hp as <-.
           destruct (decide (i < length (kept_positions n L))%nat) as [Hlt|Hge].
           ++ rewrite lookup_app_l in Hi by done.
              apply kept_positions_lookup_lt in Hi. lia.
           ++ apply lookup_lt_Some in Hi as Hlen. rewrite length_app in Hlen.
              simpl in Hlen. do 2 f_equal. lia.
      * rewrite lookup_insert_ne by done. rewrite Hmap. split.
        -- intros (i & p & -> & -> & Hi). exists i, p. split_and!; [done..|].
           rewrite lookup_app_l; [done|]. by eapply lookup_lt_Some.
        -- intros (i & p & -> & -> & Hi). exists i, p. split_and!; [done..|].
           destruct (decide (i < length (kept_positions n L))%nat) as [Hlt|Hge].
           ++ by rewrite lookup_app_l in Hi.
           ++ rewrite lookup_app_r in Hi by lia.
              destruct (i - length (kept_positions n L))%nat; [|done].
              injection Hi as <-. done.
    + rewrite bool_decide_eq_false_2.
      2:{ rewrite elem_of_to_delete. intros Hnot. apply Hnot. split; [lia|done]. }
      rewrite app_nil_r. split; [done|]. apply Hmap.
Qed.

Lemma old_to_new_plan_spec (n : nat) (L : list Z) (x j : Z) :
  old_to_new_plan n (to_delete_simple n L) !! x = Some j ↔
  ∃ i p, j = Z.of_nat i ∧ x = Z.of_nat p ∧ kept_positions n L !! i = Some p.
Proof. unfold old_to_new_plan. by apply number_kept_fold. Qed.



(** ** [create_from_plan]: the replacement loop *)

Section plan_loop.
Context (keep_all : list (Z * dict)) (ids : list str).
Let L := keep_all.*1.
Let n := length ids.






End plan_loop.




(** ** [create_from_plan] and [create_simple] *)

Lemma old_to_new_simple_rank (n : nat) (L : list Z) (x : Z) :
  NoDup L → (∀ x, x ∈ L → 0 ≤ x < Z.of_nat n) → x ∈ L →
  ∃ j, old_to_new_simple L !! x = Some (Z.of_nat j) ∧
       kept_positions n L !! j = Some (Z.to_nat x).
Proof.
  intros Hnodup Hrange Hx. unfold old_to_new_simple.
  assert (NoDup (sorted L)) as Hnodup'.
  { unfold sorted. by rewrite merge_sort_Permutation. }
  assert (x ∈ sorted L) as [j Hj]%list_elem_of_lookup.
  { unfold sorted. by rewrite merge_sort_Permutation. }
  exists j. rewrite (number_sorted_rank _ _ _ j x) by done.
  split; [f_equal; lia|].
  rewrite (sorted_kept_positions n) in Hj by done.
  rewrite list_lookup_fmap in Hj.
  destruct (kept_positions n L !! j) as [p|] eqn:Hp; [|done].
  injection Hj as <-. by rewrite Nat2Z.id.
Qed.

(** For distinct requests in range the two mappings agree. *)
Lemma old_to_new_agree (n : nat) (L : list Z) (x : Z) :
  NoDup L → (∀ x, x ∈ L → 0 ≤ x < Z.of_nat n) → x ∈ L →
  old_to_new_plan n (to_delete_simple n L) !! x = old_to_new_simple L !! x.
Proof.
  intros Hnodup Hrange Hx.
  destruct (old_to_new_simple_rank n L x Hnodup Hrange Hx) as (j & -> & Hj).
  apply old_to_new_plan_spec. exists j, (Z.to_nat x). split_and!; [done| |done].
  specialize (Hrange x Hx). lia.
Qed.

Lemma bind_ext {A B} (m : M A) (f g : A → M B) (w : world) :
  (∀ a w', f a w' = g a w') → (m ≫= f) w = (m ≫= g) w.
Proof. intros Hfg. unfold mbind, M_bind. destruct (m w) as [[a|e] w']; [apply Hfg|done]. Qed.

Lemma for_ext {A B1 B2 S} (l : list A) (f1 : A → B1) (f2 : A → B2)
    (b1 : B1 → S → M S) (b2 : B2 → S → M S) (s : S) (w : world) :
  (∀ x s w, x ∈ l → b1 (f1 x) s w = b2 (f2 x) s w) →
  for_ (f1 <$> l) b1 s w = for_ (f2 <$> l) b2 s w.
Proof.
  revert s w. induction l as [|x l IH]; intros s w Hb; [done|].
  cbn [fmap list_fmap for_].
  unfold mbind, M_bind. rewrite Hb by (by left).
  destruct (b2 (f2 x) s w) as [[s'|e] w']; [|done].
  apply IH. intros y s'' w'' Hy. apply Hb. by right.
Qed.

(** X6.  On a plan whose positions are distinct and in range,
    [create_from_plan] and [create_simple] (called as [main] calls it, with
    the positions and the dictionaries of the plan) do the same: the same
    result, the same document, the same calls in the same order. *)
Theorem create_from_plan_agrees_with_simple (self : PPTCloner)
    (content_plan : list plan_item) (output_path : str) (w : world)
    (prs : Pptx.presentation) :
  files w !! template_path self = Some (FilePptx prs) →
  let slide_indices := resolve_template_idx self <$> content_plan in
  let replacements_list :=
    (λ item, default [] (item_replacements item)) <$> content_plan in
  NoDup slide_indices →
  (∀ x, x ∈ slide_indices → 0 ≤ x < Z.of_nat (Pptx.slides_len prs)) →
  create_from_plan self content_plan output_path w
    = create_simple self slide_indices replacements_list output_path w.
Proof.
  intros Hfile L R Hnodup Hrange.
  assert ((slides_to_keep self content_plan).*1 = L) as Hpos.
  { unfold slides_to_keep, L. rewrite <-list_fmap_compose. by apply list_fmap_ext. }
  unfold create_from_plan, create_simple.
  rewrite !(bind_ok _ _ _ _ _ (Presentation_ok _ _ _ Hfile)). cbv zeta.
  rewrite indices_to_delete_simple, Hpos. unfold prune_simple. cbv zeta.
  apply bind_ext. intros prs1 w1. unfold substitute_simple. cbv zeta.
  assert (∀ prs1 w1,
    for_ (slides_to_keep self content_plan)
      (λ item prs0,
         match old_to_new_plan (Pptx.slides_len prs)
                 (to_delete_simple (Pptx.slides_len prs) L) !! item.1 with
         | Some new_idx => replace_on_slide new_idx (Ok item.2) prs0
         | None => mret prs0
         end) prs1 w1
    = for_ (enumerate L) (replace_entry (old_to_new_simple L) R) prs1 w1) as Hloop.
  { clear prs1 w1. intros prs1 w1.
    assert (slides_to_keep self content_plan
            = (λ e : nat * plan_item,
                 (resolve_template_idx self e.2, default [] (item_replacements e.2)))
                <$> imap pair content_plan) as ->.
    { unfold slides_to_keep. rewrite <-(imap_pair_snd content_plan) at 1.
      by rewrite <-list_fmap_compose. }
    assert (enumerate L
            = (λ e : nat * plan_item, (Z.of_nat e.1, resolve_template_idx self e.2))
                <$> imap pair content_plan) as ->.
    { unfold L. apply list_eq. intros i.
      rewrite enumerate_lookup, !list_lookup_fmap, list_lookup_imap.
      by destruct (content_plan !! i). }
    apply for_ext. intros [i item] prs' w' Hin%elem_of_imap_pair. cbn [fst snd].
    unfold replace_entry.
    assert (resolve_template_idx self item ∈ L) as HL.
    { apply list_elem_of_fmap. exists item. split; [done|].
      by eapply list_elem_of_lookup_2. }
    rewrite (old_to_new_agree (Pptx.slides_len prs) L _ Hnodup Hrange HL).
    destruct (old_to_new_simple L !! _) as [j|]; [|done].
    assert (R !! i = Some (default [] (item_replacements item))) as HR.
    { unfold R. by rewrite list_lookup_fmap, Hin. }
    pose proof (lookup_lt_Some _ _ _ HR) as Hlt.
    rewrite bool_decide_eq_true_2 by lia.
    by rewrite index_of_nat, HR by done. }
  unfold mbind at 1 3. unfold M_bind. rewrite Hloop.
  reflexivity.
Qed.

(** ** Trimming *)

Lemma lstrip_suffix (s : str) : ∃ p, s = p ++ lstrip s.
Proof.
  induction s as [|c s [p IH]]; [by exists []|]. simpl.
  destruct (isspace c); [|by exists []].
  exists (c :: p). simpl. by f_equal.
Qed.

Lemma lstrip_id (s : str) :
  (∀ c, head s = Some c → isspace c = false) → lstrip s = s.
Proof. destruct s as [|c s]; [done|]. intros Hc. simpl. by rewrite Hc. Qed.

Lemma rstrip_id (s : str) :
  (∀ c, last s = Some c → isspace c = false) → rstrip s = s.
Proof.
  intros Hc. unfold rstrip. rewrite lstrip_id; [apply reverse_involutive|].
  intros c Hhead. apply Hc. by rewrite <-head_reverse.
Qed.

Lemma rstrip_head (s : str) (c : N) :
  (∀ c, head s = Some c → isspace c = false) →
  head (rstrip s) = Some c → isspace c = false.
Proof.
  intros Hs. unfold rstrip. rewrite head_reverse.
  destruct (lstrip_suffix (reverse s)) as [p Hp].
  destruct (lstrip (reverse s)) as [|x r] eqn:Hl; [done|].
  intros Hlast. apply Hs. rewrite <-last_reverse, Hp.
  by rewrite last_app, Hlast.
Qed.

Lemma strip_head (s : str) (c : N) : head (strip s) = Some c → isspace c = false.
Proof.
  apply rstrip_head. intros x Hx.
  destruct (lstrip s) as [|y r] eqn:Hl; [done|]. injection Hx as ->.
  by eapply lstrip_head.
Qed.

(** [strip] is idempotent: a trimmed text is its own trimming. *)
Lemma strip_strip (s : str) : strip (strip s) = strip s.
Proof.
  unfold strip at 1. rewrite lstrip_id by apply strip_head.
  apply rstrip_id, strip_last.
Qed.

(** ** [_analyze_slide] *)

Lemma scan_shapes (shapes : list Pptx.shape) (elements : list (str * str)) (preview : str) :
  fold_left scan_shape shapes (elements, preview) =
  (elements ++ omap text_element shapes,
   match preview with
   | [] => take 50 (default [] (snd <$> head (omap text_element shapes)))
   | _ :: _ => preview
   end).
Proof.
  revert elements preview. induction shapes as [|sh shapes IH]; intros elements preview.
  { simpl. rewrite app_nil_r. by destruct preview. }
  cbn [fold_left omap list_omap].
  destruct (scan_shape (elements, preview) sh) as [elements' preview'] eqn:Hscan.
  rewrite IH. revert Hscan. unfold scan_shape, text_element.
  destruct (Pptx.shape_text_frame sh) as [tf|]; cbn [mbind option_bind fst snd];
    [|by intros [= <- <-]].
  destruct (strip (Pptx.text tf)) as [|c text] eqn:Hstrip; [by intros [= <- <-]|].
  intros [= <- <-]. rewrite <-app_assoc. f_equal. by destruct preview.
Qed.

Section analysis.
Context `{Unicode}.

(** X7.  The summary of a slide: a text element for each text-bearing
    shape whose trimmed text is not empty, in the order of the shapes; every
    recorded text is non-empty and trimmed; the preview is the first 50
    characters of the first recorded text, empty when there is none; the
    shape count counts all shapes. *)
Theorem analyze_slide_summary (sl : Pptx.slide) (idx : Z) (total : nat) :
  let info := _analyze_slide sl idx total in
  info_index info = idx ∧
  info_shape_count info = length (Pptx.shapes sl) ∧
  info_text_elements info = omap text_element (Pptx.shapes sl) ∧
  (length (info_text_elements info) ≤ info_shape_count info)%nat ∧
  (∀ name text, (name, text) ∈ info_text_elements info →
     text ≠ [] ∧ strip text = text) ∧
  info_preview_text info
    = take 50 (default [] (snd <$> head (info_text_elements info))) ∧
  (length (info_preview_text info) ≤ 50)%nat.
Proof.
  intros info. unfold info, _analyze_slide. cbv zeta.
  cbn [info_index info_shape_count info_text_elements info_preview_text].
  rewrite scan_shapes. cbn [fst snd app]. split_and!; [done..| | |done|].
  - induction (Pptx.shapes sl) as [|sh shapes IH]; [done|].
    cbn [omap list_omap]. destruct (text_element sh); simpl; lia.
  - intros name text (sh & _ & Hsh)%list_elem_of_omap.
    unfold text_element in Hsh.
    destruct (Pptx.shape_text_frame sh) as [tf|]; [|done]. simpl in Hsh.
    destruct (strip (Pptx.text tf)) as [|c t] eqn:Hstrip; [done|].
    injection Hsh as _ <-. split; [done|]. rewrite <-Hstrip. apply strip_strip.
  - rewrite length_take. lia.
Qed.

(** ** [_analyze_template] *)

Lemma related_slides_raise (prs : Pptx.presentation) (rIds : list str) (e : exn) :
  Pptx.related_slides prs rIds = Raise e → e = KeyError.
Proof.
  induction rIds as [|rId rIds IH]; [done|]. simpl. unfold Pptx.related_slide.
  destruct (Pptx.rels prs !! rId); simpl; [|by intros [= <-]].
  destruct (Pptx.related_slides prs rIds); [done|]. intros [= <-]. by apply IH.
Qed.

Lemma related_slides_lookup (prs : Pptx.presentation) (rIds : list str)
    (sls : list Pptx.slide) (i : nat) (sl : Pptx.slide) :
  Pptx.related_slides prs rIds = Ok sls →
  sls !! i = Some sl ↔ ∃ rId, rIds !! i = Some rId ∧ Pptx.rels prs !! rId = Some sl.
Proof.
  revert sls i. induction rIds as [|rId rIds IH]; intros sls i; simpl.
  - intros [= <-]. split; [done|]. by intros (? & ? & _).
  - unfold Pptx.related_slide.
    destruct (Pptx.rels prs !! rId) as [sl0|] eqn:Hsl0; simpl; [|done].
    destruct (Pptx.related_slides prs rIds) as [sls'|]; [|done].
    intros [= <-]. destruct i as [|i]; simpl.
    + split; [intros [= ->]; by exists rId|]. intros (r & [= <-] & Hr). congruence.
    + by apply IH.
Qed.

Lemma analyze_template_ok (path : str) (w : world) (prs : Pptx.presentation)
    (sls : list Pptx.slide) :
  files w !! path = Some (FilePptx prs) → Pptx.slides prs = Ok sls →
  _analyze_template path w = (Ok (analysis_of prs sls), w).
Proof.
  intros Hfile Hsls. unfold _analyze_template.
  rewrite (bind_ok _ _ _ _ _ (Presentation_ok _ _ _ Hfile)).
  by rewrite Hsls.
Qed.

(** X8.  [_analyze_template] fails with [PackageNotFoundError] when the
    path holds no presentation and with [KeyError] when an entry of the slide
    list has no slide part; otherwise it returns, without touching the files,
    an analysis whose [slide_count] is the number of slides and which holds
    one summary per slide, in order, each with its position as index. *)
Theorem analyze_template_summaries (path : str) (w : world) :
  match files w !! path with
  | Some (FilePptx prs) =>
      if decide (well_formed prs) then
        ∃ a, _analyze_template path w = (Ok a, w) ∧
          slide_count a = Pptx.slides_len prs ∧
          length (slide_infos a) = Pptx.slides_len prs ∧
          ∀ i info, slide_infos a !! i = Some info ↔
            ∃ rId sl, Pptx.sldIdLst prs !! i = Some rId ∧
              Pptx.rels prs !! rId = Some sl ∧
              info = _analyze_slide sl (Z.of_nat i) (Pptx.slides_len prs)
      else _analyze_template path w = (Raise KeyError, w)
  | _ => _analyze_template path w = (Raise PackageNotFoundError, w)
  end.
Proof.
  destruct (files w !! path) as [[prs| | |]|] eqn:Hfile;
    try (unfold _analyze_template, Presentation, mbind, M_bind; by rewrite Hfile).
  destruct (decide (well_formed prs)) as [Hwf|Hwf].
  - apply well_formed_slides in Hwf as [sls Hsls].
    exists (analysis_of prs sls). split; [by apply analyze_template_ok|].
    split; [done|]. split.
    + unfold analysis_of. cbn [slide_infos]. unfold enumerate.
      rewrite length_fmap, length_imap. by eapply related_slides_length.
    + intros i info. rewrite analysis_infos_lookup. split.
      * destruct (sls !! i) as [sl|] eqn:Hsl; [|done]. intros [= <-].
        apply (related_slides_lookup _ _ _ _ _ Hsls) in Hsl as (rId & ? & ?).
        by exists rId, sl.
      * intros (rId & sl & HrId & Hsl & ->).
        assert (sls !! i = Some sl) as ->; [|done].
        apply (related_slides_lookup _ _ _ _ _ Hsls). by exists rId.
  - unfold _analyze_template.
    rewrite (bind_ok _ _ _ _ _ (Presentation_ok _ _ _ Hfile)).
    destruct (Pptx.slides prs) as [sls|e] eqn:Hsls.
    + destruct Hwf. apply well_formed_slides. by exists sls.
    + apply related_slides_raise in Hsls as ->. done.
Qed.

(** What a successful construction of the cloner tells. *)
Lemma PPTCloner_init_inv (path : str) (w w' : world) (cloner : PPTCloner) :
  PPTCloner_init path w = (Ok cloner, w') →
  ∃ prs sls, files w !! path = Some (FilePptx prs) ∧ Pptx.slides prs = Ok sls ∧
    cloner = {| template_path := path; analysis := analysis_of prs sls |} ∧ w' = w.
Proof.
  unfold PPTCloner_init, path_exists, _analyze_template, Presentation.
  unfold mbind, M_bind, mret, M_ret, raise, lift.
  destruct (files w !! path) as [[prs| | |]|] eqn:Hfile; simpl;
    rewrite ?bool_decide_eq_true_2 by eauto; simpl; rewrite ?Hfile; try done.
  destruct (Pptx.slides prs) as [sls|e] eqn:Hsls; [|done].
  intros [= <- <-]. by exists prs, sls.
Qed.

Lemma analysis_indices (prs : Pptx.presentation) (sls : list Pptx.slide) :
  info_index <$> slide_infos (analysis_of prs sls) = Z.of_nat <$> seq 0 (length sls).
Proof.
  apply list_eq. intros i. rewrite !list_lookup_fmap, analysis_infos_lookup.
  destruct (sls !! i) as [sl|] eqn:Hsl; simpl.
  - rewrite lookup_seq_lt by (by eapply lookup_lt_Some). done.
  - rewrite lookup_seq_ge by (by apply lookup_ge_None). done.
Qed.

Lemma StronglySorted_fmap_filter {A B} (R : relation B) (f : A → B) (P : A → Prop)
    `{∀ x, Decision (P x)} (l : list A) :
  StronglySorted R (f <$> l) → StronglySorted R (f <$> filter P l).
Proof.
  induction l as [|x l IH]; [done|]. cbn [fmap list_fmap].
  intros [Hx Hl]%StronglySorted_cons. rewrite filter_cons.
  destruct (decide (P x)); [|by apply IH].
  cbn [fmap list_fmap]. apply StronglySorted_cons. split; [|by apply IH].
  rewrite Forall_fmap in Hx |- *. apply Forall_forall. intros y [_ Hy]%list_elem_of_filter.
  rewrite Forall_forall in Hx. by apply Hx.
Qed.

(** The positions [get_slides_by_type] lists for a category. *)
Lemma get_slides_by_type_mem (path : str) (prs : Pptx.presentation)
    (sls : list Pptx.slide) (ty : str) (p : Z) :
  p ∈ get_slides_by_type {| template_path := path; analysis := analysis_of prs sls |} ty ↔
  ∃ i sl, p = Z.of_nat i ∧ sls !! i = Some sl ∧
    info_type (_analyze_slide sl (Z.of_nat i) (Pptx.slides_len prs)) = ty.
Proof.
  rewrite get_slides_by_type_analysis, list_elem_of_fmap. split.
  - intros (info & -> & [Hty [i Hi]%list_elem_of_lookup]%list_elem_of_filter).
    rewrite analysis_infos_lookup in Hi.
    destruct (sls !! i) as [sl|] eqn:Hsl; [|done]. injection Hi as <-.
    by exists i, sl.
  - intros (i & sl & -> & Hsl & Hty).
    exists (_analyze_slide sl (Z.of_nat i) (Pptx.slides_len prs)). split; [done|].
    apply list_elem_of_filter. split; [done|].
    apply (list_elem_of_lookup_2 _ i). by rewrite analysis_infos_lookup, Hsl.
Qed.

Lemma infer_slide_type_category (info : SlideInfo) (idx : Z) (total : nat) :
  _infer_slide_type info idx total ∈ categories.
Proof.
  unfold _infer_slide_type, categories. cbv zeta.
  repeat case_match; apply list_elem_of_In; simpl; auto 10.
Qed.

(** X9.  [get_slides_by_type] of a category lists, in strictly ascending
    order, exactly the positions of the slides the analysis gave that
    category; it is empty for a category no slide has. *)
Theorem slides_by_type_index (path : str) (w w' : world) (cloner : PPTCloner)
    (slide_type : str) :
  PPTCloner_init path w = (Ok cloner, w') →
  StronglySorted Z.lt (get_slides_by_type cloner slide_type) ∧
  ∀ p, p ∈ get_slides_by_type cloner slide_type ↔
       ∃ i info, p = Z.of_nat i ∧ slide_infos (analysis cloner) !! i = Some info ∧
                 info_type info = slide_type.
Proof.
  intros (prs & sls & _ & _ & -> & _)%PPTCloner_init_inv. split.
  - rewrite get_slides_by_type_analysis. cbn [analysis].
    apply StronglySorted_fmap_filter. rewrite analysis_indices.
    apply (StronglySorted_fmap _ lt); [intros x y; apply Nat2Z.inj_lt|].
    generalize 0%nat.
    induction (length sls) as [|n IH]; intros k; [constructor|]. simpl.
    constructor; [apply IH|]. apply Forall_forall. intros y Hy%elem_of_seq. lia.
  - intros p. rewrite get_slides_by_type_mem. cbn [analysis]. split.
    + intros (i & sl & -> & Hsl & Hty). eexists i, _. split; [done|].
      by rewrite analysis_infos_lookup, Hsl.
    + intros (i & info & -> & Hi & Hty). rewrite analysis_infos_lookup in Hi.
      destruct (sls !! i) as [sl|] eqn:Hsl; [|done]. injection Hi as <-.
      by exists i, sl.
Qed.

(** X10.  The lists of [slide_types] part the positions of the template:
    every position is in the list of one category and of no other, the
    category is one of the five, and the lists hold nothing but positions of
    the template. *)
Theorem slide_types_partition (path : str) (w w' : world) (cloner : PPTCloner) :
  PPTCloner_init path w = (Ok cloner, w') →
  (∀ i, (i < slide_count (analysis cloner))%nat →
     ∃ ty, ty ∈ categories ∧ Z.of_nat i ∈ get_slides_by_type cloner ty ∧
       ∀ ty', Z.of_nat i ∈ get_slides_by_type cloner ty' → ty' = ty) ∧
  (∀ ty p, p ∈ get_slides_by_type cloner ty →
     ty ∈ categories ∧ 0 ≤ p < Z.of_nat (slide_count (analysis cloner))).
Proof.
  intros (prs & sls & _ & Hsls & -> & _)%PPTCloner_init_inv.
  apply related_slides_length in Hsls. cbn [analysis analysis_of slide_count].
  unfold Pptx.slides_len. split.
  - intros i Hi. destruct (lookup_lt_is_Some_2 sls i) as [sl Hsl]; [lia|].
    exists (info_type (_analyze_slide sl (Z.of_nat i) (Pptx.slides_len prs))).
    split_and!.
    + apply infer_slide_type_category.
    + apply get_slides_by_type_mem. by exists i, sl.
    + intros ty' (i' & sl' & Hi' & Hsl' & <-)%get_slides_by_type_mem.
      apply Nat2Z.inj in Hi' as <-. congruence.
  - intros ty p (i & sl & -> & Hsl & <-)%get_slides_by_type_mem. split.
    + apply infer_slide_type_category.
    + apply lookup_lt_Some in Hsl. lia.
Qed.

(** X11.  A plan entry that names a category resolves to a position of the
    template whenever the template has a slide, and an entry of category
    ["cover"] resolves to position 0; an entry that gives [template_slide]
    resolves to it whatever category it names. *)
Theorem category_resolves_in_range (path : str) (w w' : world) (cloner : PPTCloner)
    (item : plan_item) :
  PPTCloner_init path w = (Ok cloner, w') →
  (∀ x, item_template_slide item = Some x → resolve_template_idx cloner item = x) ∧
  (item_template_slide item = None → (0 < slide_count (analysis cloner))%nat →
     0 ≤ resolve_template_idx cloner item < Z.of_nat (slide_count (analysis cloner))) ∧
  (item_template_slide item = None → item_type item = Some (lit "cover") →
     resolve_template_idx cloner item = 0).
Proof.
  intros (prs & sls & _ & Hsls & -> & _)%PPTCloner_init_inv.
  split_and!.
  - intros x Hx. unfold resolve_template_idx. by rewrite Hx.
  - intros Hnone Hpos. unfold resolve_template_idx. rewrite Hnone.
    cbn [analysis analysis_of slide_count] in *.
    pose proof (get_slides_by_type_mem path prs sls
                  (default (lit "content") (item_type item))) as Hmem.
    destruct (get_slides_by_type _ _) as [|first rest]; [lia|].
    destruct (proj1 (Hmem first)) as (i & sl & -> & Hi & _); [by left|].
    apply lookup_lt_Some in Hi. apply related_slides_length in Hsls.
    unfold Pptx.slides_len. lia.
  - intros Hnone Hty. unfold resolve_template_idx. rewrite Hnone, Hty. cbn [default].
    rewrite get_slides_by_type_analysis.
    destruct sls as [|sl sls].
    { unfold analysis_of. by cbn. }
    pose proof (filter_head (λ info, info_type info = lit "cover")
      (slide_infos (analysis_of prs (sl :: sls))) 0
      (_analyze_slide sl 0 (Pptx.slides_len prs))) as Hhead.
    destruct (filter _ _) as [|first rest].
    + exfalso. enough (None = Some (_analyze_slide sl 0 (Pptx.slides_len prs))) by done.
      apply Hhead; [done|done|]. intros; lia.
    + simpl in Hhead. cbn [fmap list_fmap].
      assert (Some first = Some (_analyze_slide sl 0 (Pptx.slides_len prs))) as [= ->];
        [|done].
      apply Hhead; [done|done|]. intros; lia.
Qed.

End analysis.

(** ** What [_apply_replacements] leaves alone *)

Lemma replace_run_br (d : dict) (i : Pptx.item) :
  replace_run d i = Pptx.Br ↔ i = Pptx.Br.
Proof. by destruct i as [[|c t]|]. Qed.

Lemma replace_shape_name (d : dict) (sh : Pptx.shape) :
  Pptx.shape_name (replace_shape d sh) = Pptx.shape_name sh ∧
  (is_Some (Pptx.shape_text_frame (replace_shape d sh))
     ↔ is_Some (Pptx.shape_text_frame sh)).
Proof.
  unfold replace_shape. destruct (Pptx.shape_text_frame sh) as [tf|] eqn:Htf.
  - cbv zeta. destruct (dict_get d _); [by split; [|split; eauto]|].
    destruct (dict_get d _); by split; [|split; eauto].
  - by rewrite Htf.
Qed.

(** X12.  [_apply_replacements] changes texts only: the layout of the
    slide, the number and the order of its shapes, their names and which of
    them bear text stay as they are, and a shape that bears no text is left
    untouched.  Where neither whole-text rule applies to a shape, its
    paragraphs, the number of items in each and the places of the line breaks
    stay as well: only the texts of the runs change. *)
Theorem apply_replacements_frame (sl : Pptx.slide) (d : dict) :
  let sl' := _apply_replacements sl d in
  Pptx.slide_layout sl' = Pptx.slide_layout sl ∧
  length (Pptx.shapes sl') = length (Pptx.shapes sl) ∧
  ∀ i sh, Pptx.shapes sl !! i = Some sh →
    ∃ sh', Pptx.shapes sl' !! i = Some sh' ∧
      Pptx.shape_name sh' = Pptx.shape_name sh ∧
      (is_Some (Pptx.shape_text_frame sh') ↔ is_Some (Pptx.shape_text_frame sh)) ∧
      (Pptx.shape_text_frame sh = None → sh' = sh) ∧
      (∀ tf, Pptx.shape_text_frame sh = Some tf →
         dict_get d (lit "shape:" ++ Pptx.shape_name sh) = None →
         dict_get d (strip (Pptx.text tf)) = None →
         ∃ tf', Pptx.shape_text_frame sh' = Some tf' ∧ length tf' = length tf ∧
           ∀ j p, tf !! j = Some p →
             ∃ p', tf' !! j = Some p' ∧ length p' = length p ∧
               ∀ k, p' !! k = Some Pptx.Br ↔ p !! k = Some Pptx.Br).
Proof.
  intros sl'. unfold sl', _apply_replacements. cbn [Pptx.slide_layout Pptx.shapes].
  split; [done|]. split; [by rewrite length_fmap|].
  intros i sh Hsh. exists (replace_shape d sh).
  rewrite list_lookup_fmap, Hsh. split; [done|].
  destruct (replace_shape_name d sh) as [Hname Hframe].
  split_and!; [done..|apply replace_shape_no_text|].
  intros tf Htf Hnamed Hwhole.
  pose proof (replace_shape_rules d sh tf Htf) as Hrules.
  rewrite Hnamed, Hwhole in Hrules. rewrite Hrules. cbn [Pptx.shape_text_frame].
  eexists. split; [done|]. split; [by rewrite length_fmap|].
  intros j p Hp. exists (replace_run d <$> p).
  rewrite list_lookup_fmap, Hp. split; [done|]. split; [by rewrite length_fmap|].
  intros k. rewrite list_lookup_fmap.
  destruct (p !! k) as [i0|]; simpl; [|done].
  split; intros [= Hbr]; f_equal; by apply (replace_run_br d).
Qed.


(** ** Inverting a run *)



(** ** Slide parts *)











Section runs.
Context `{Unicode}.


(** ** [main] *)



(** X16.  The command [analyze] on a well-formed template returns; given
    an output path that is not the empty string, it leaves there the analysis
    of the template and writes nothing else; given none, or the empty string,
    it writes nothing. *)
Theorem main_analyze_outcome (argv : list str) (w : world) (template : str)
    (prs : Pptx.presentation) :
  argv !! 1%nat = Some (lit "analyze") → argv !! 2%nat = Some template →
  files w !! template = Some (FilePptx prs) → well_formed prs →
  ∃ a, _analyze_template template w = (Ok a, w) ∧
    match argv !! 3%nat with
    | Some ((_ :: _) as path) =>
        main argv w =
          (Ok (), {| files := <[path := FileAnalysis a]> (files w);
                     calls := calls w ++ [CallExport path] |})
    | _ => main argv w = (Ok (), w)
    end.
Proof.
  intros Hcmd Htemplate Hprs Hwf.
  destruct (proj1 (well_formed_slides prs) Hwf) as [sls Hsls].
  exists (analysis_of prs sls). split; [by apply analyze_template_ok|].
  pose proof (lookup_lt_Some _ _ _ Htemplate) as Hlen.
  destruct argv as [|a0 [|command rest]]; [done..|].
  injection Hcmd as ->. rewrite main_command.
  rewrite bool_decide_eq_true_2 by done.
  rewrite bool_decide_eq_false_2 by lia.
  rewrite (bind_arg _ 2 template) by done. cbv zeta.
  rewrite (bind_ok _ _ _ _ _ (PPTCloner_init_ok template w prs sls Hprs Hsls)).
  destruct ((a0 :: lit "analyze" :: rest) !! 3%nat) as [path|] eqn:Hpath.
  - pose proof (lookup_lt_Some _ _ _ Hpath).
    rewrite bool_decide_eq_true_2 by lia. by destruct path.
  - by case_bool_decide.
Qed.

(** ** Exit codes *)

Lemma exits_ret {A} (code : Z) (a : A) : exits_with code (mret a).
Proof. by intros w c. Qed.

Lemma exits_exit {A} (code : Z) : exits_with code (sys_exit (A:=A) code).
Proof. intros w c. unfold sys_exit, raise. simpl. by intros [= <-]. Qed.

Lemma exits_raise {A} (code : Z) (e : exn) :
  (∀ c, e ≠ SystemExit c) → exits_with code (raise (A:=A) e).
Proof. intros He w c. unfold raise. simpl. intros [= ->]. by destruct (He c). Qed.

Lemma exits_lift {A} (code : Z) (r : result A) :
  (∀ c, r ≠ Raise (SystemExit c)) → exits_with code (lift r).
Proof. intros Hr w c. unfold lift. simpl. intros ->. by destruct (Hr c). Qed.

Lemma exits_bind {A B} (code : Z) (m : M A) (f : A → M B) :
  exits_with code m → (∀ a, exits_with code (f a)) → exits_with code (m ≫= f).
Proof.
  intros Hm Hf w c.
  destruct (bind_case m f w) as [(a & w' & Hw & ->)|(e & w' & Hw & ->)].
  - apply Hf.
  - simpl. intros [= ->]. apply (Hm w). by rewrite Hw.
Qed.

Lemma exits_for {A S} (code : Z) (l : list A) (body : A → S → M S) (s : S) :
  (∀ x s, exits_with code (body x s)) → exits_with code (for_ l body s).
Proof.
  intros Hbody. revert s. induction l as [|x l IH]; intros s; simpl.
  - apply exits_ret.
  - apply exits_bind; [done|]. intros s'. apply IH.
Qed.

Lemma exits_from_option {A} (code : Z) (e : exn) (o : option A) :
  (∀ c, e ≠ SystemExit c) → exits_with code (lift (from_option e o)).
Proof.
  intros He. apply exits_lift. intros c. destruct o; simpl; [done|].
  intros [= ->]. by destruct (He c).
Qed.

Lemma exits_log (code : Z) (c : call) : exits_with code (log c).
Proof. by intros w c'. Qed.

Lemma exits_Presentation (code : Z) (path : str) : exits_with code (Presentation path).
Proof. intros w c. unfold Presentation. by destruct (files w !! path) as [[]|]. Qed.

Lemma exits_delete_slide (code : Z) (idx : Z) (prs : Pptx.presentation) :
  exits_with code (delete_slide idx prs).
Proof.
  unfold delete_slide.
  apply exits_bind; [by apply exits_from_option|]. intros rId.
  apply exits_bind; [apply exits_log|]. intros _.
  apply exits_bind.
  { apply exits_lift. intros c. unfold Pptx.drop_rel.
    case_bool_decide; [|done]. by destruct (Pptx.rels prs !! rId). }
  intros prs1. apply exits_bind; [apply exits_log|]. intros _.
  apply exits_lift. intros c. unfold Pptx.del_sldId. by destruct (position _ _).
Qed.

Lemma exits_replace_on_slide (code : Z) (new_idx : Z) (o : option dict)
    (prs : Pptx.presentation) :
  exits_with code (replace_on_slide new_idx (from_option IndexError o) prs).
Proof.
  unfold replace_on_slide. apply exits_bind.
  { apply exits_lift. intros c. unfold Pptx.slides_getitem, Pptx.related_slide.
    destruct (index _ _) as [rId|]; [|done]. by destruct (Pptx.rels prs !! rId). }
  intros [rId sl]. apply exits_bind; [by apply exits_from_option|]. intros d.
  apply exits_bind; [apply exits_log|]. intros _. apply exits_ret.
Qed.

Lemma exits_create_simple (code : Z) (self : PPTCloner) (L : list Z) (R : list dict)
    (output_path : str) :
  exits_with code (create_simple self L R output_path).
Proof.
  unfold create_simple.
  apply exits_bind; [apply exits_Presentation|]. intros prs.
  apply exits_bind; [apply exits_for; intros; apply exits_delete_slide|]. intros prs1.
  apply exits_bind.
  { apply exits_for. intros [i x] prs2. unfold replace_entry.
    destruct (_ !! x); [|apply exits_ret].
    case_bool_decide; [apply exits_replace_on_slide|apply exits_ret]. }
  intros prs2. apply exits_bind; [by intros w c|]. intros _. apply exits_ret.
Qed.

Lemma exits_create_from_plan (code : Z) (self : PPTCloner)
    (content_plan : list plan_item) (output_path : str) :
  exits_with code (create_from_plan self content_plan output_path).
Proof.
  unfold create_from_plan.
  apply exits_bind; [apply exits_Presentation|]. intros prs. cbv zeta.
  apply exits_bind; [apply exits_for; intros; apply exits_delete_slide|]. intros prs1.
  apply exits_bind.
  { apply exits_for. intros item prs2.
    destruct (_ !! item.1); [|apply exits_ret].
    apply (exits_replace_on_slide code _ (Some item.2)). }
  intros prs2. apply exits_bind; [by intros w c|]. intros _. apply exits_ret.
Qed.

Lemma exits_PPTCloner_init (code : Z) (path : str) :
  exits_with code (PPTCloner_init path).
Proof.
  unfold PPTCloner_init. apply exits_bind; [by intros w c|]. intros [|]; simpl.
  - apply exits_bind; [|intros a; apply exits_ret]. unfold _analyze_template.
    apply exits_bind; [apply exits_Presentation|]. intros prs.
    apply exits_bind; [|intros sls; apply exits_ret].
    apply exits_lift. intros c Hc. by apply related_slides_raise in Hc.
  - by apply exits_raise.
Qed.

Lemma exits_main (argv : list str) : exits_with 1 (main argv).
Proof.
  unfold main. case_bool_decide; [apply exits_exit|].
  apply exits_bind; [by apply exits_from_option|]. intros command.
  case_bool_decide.
  { case_bool_decide; [apply exits_exit|].
    apply exits_bind; [by apply exits_from_option|]. intros template. cbv zeta.
    apply exits_bind; [apply exits_PPTCloner_init|]. intros cloner.
    destruct (if bool_decide _ then _ else _) as [[|c path]|];
      [apply exits_ret|by intros w c'|apply exits_ret]. }
  case_bool_decide; [|apply exits_exit].
  case_bool_decide; [apply exits_exit|].
  apply exits_bind; [by apply exits_from_option|]. intros template.
  apply exits_bind; [by apply exits_from_option|]. intros plan_path.
  apply exits_bind; [by apply exits_from_option|]. intros output_path.
  apply exits_bind.
  { intros w c. unfold load_plan. by destruct (files w !! plan_path) as [[]|]. }
  intros content_plan.
  apply exits_bind; [apply exits_PPTCloner_init|]. intros cloner.
  destruct content_plan as [content_plan|]; [|by apply exits_raise]. cbv zeta.
  apply exits_bind; [apply exits_create_simple|]. intros _. apply exits_ret.
Qed.

(** X17.  Whatever the arguments and the files, the process ends with
    status 0 or 1, and with 0 exactly when [main] returns: neither the
    cloner nor the document library ends the process with a code of its own,
    and the only code [main] passes to [sys.exit] is 1. *)
Theorem main_exit_status (argv : list str) (w : world) :
  let status := exit_status (main argv w).1 in
  (status = 0 ∨ status = 1) ∧ (status = 0 ↔ (main argv w).1 = Ok ()).
Proof.
  pose proof (exits_main argv w) as Hexit. cbv zeta.
  destruct (main argv w).1 as [[]|e]; simpl; [by split; [left|]|].
  destruct e; simpl; try (by split; [right|]).
  rewrite (Hexit code) by done. by split; [right|].
Qed.

End runs.

(** ** The further theorems at the sample template *)


Lemma sample_init :
  PPTCloner_init (H := ascii_lower) (lit "t.pptx") Sample.world
    = (Ok Sample.cloner, Sample.world).
Proof.
  apply (PPTCloner_init_ok (H := ascii_lower) (lit "t.pptx") Sample.world Sample.template
           [Sample.cover; Sample.body; Sample.closing] sample_file).
  vm_compute. reflexivity.
Defined.



Lemma create_from_plan_agrees_with_simple_witness :
  create_from_plan Sample.cloner Sample.plan_two (lit "out.pptx") Sample.world
  = create_simple Sample.cloner [0; 1] [[]; [(lit "Hello", lit "World")]]
      (lit "out.pptx") Sample.world.
Proof.
  apply (create_from_plan_agrees_with_simple Sample.cloner Sample.plan_two
           (lit "out.pptx") Sample.world Sample.template sample_file).
  - apply (bool_decide_eq_true_1 _). vm_compute. reflexivity.
  - intros x Hx. apply list_elem_of_In in Hx. vm_compute in Hx |- *.
    destruct Hx as [<-|[<-|[]]]; split; discriminate || reflexivity.
Defined.

(** The slide with the text "Hello" is the one of category ["content"]. *)
Lemma slides_by_type_index_witness :
  StronglySorted Z.lt (get_slides_by_type Sample.cloner (lit "content")) ∧
  1 ∈ get_slides_by_type Sample.cloner (lit "content").
Proof.
  destruct (slides_by_type_index (H := ascii_lower) (lit "t.pptx") Sample.world
              Sample.world Sample.cloner (lit "content") sample_init)
    as [Hsorted Hmem].
  split; [exact Hsorted|]. apply Hmem.
  exists 1%nat, (_analyze_slide (H := ascii_lower) Sample.body 1 3).
  split_and!; vm_compute; reflexivity.
Defined.

(** Position 2, the closing slide, is in the list of one of the five
    categories. *)
Lemma slide_types_partition_witness :
  ∃ ty, ty ∈ categories ∧ 2 ∈ get_slides_by_type Sample.cloner ty.
Proof.
  destruct (slide_types_partition (H := ascii_lower) (lit "t.pptx") Sample.world
              Sample.world Sample.cloner sample_init)
    as [Hpart _].
  destruct (Hpart 2%nat) as (ty & Hty & Hmem & _).
  - vm_compute. lia.
  - exists ty. split; [exact Hty|exact Hmem].
Defined.

Lemma category_resolves_in_range_witness :
  0 ≤ resolve_template_idx Sample.cloner (PlanItem None (Some (lit "cover")) None) < 3 ∧
  resolve_template_idx Sample.cloner (PlanItem None (Some (lit "cover")) None) = 0.
Proof.
  destruct (category_resolves_in_range (H := ascii_lower) (lit "t.pptx") Sample.world
              Sample.world Sample.cloner (PlanItem None (Some (lit "cover")) None)
              sample_init)
    as (_ & Hrange & Hcover).
  split.
  - apply Hrange; [reflexivity|]. vm_compute. lia.
  - apply Hcover; reflexivity.
Defined.




(** [ppt_cloner.py analyze t.pptx a.json] *)
Lemma main_analyze_outcome_witness :
  ∃ a,
    _analyze_template (H := ascii_lower) (lit "t.pptx") Sample.world
      = (Ok a, Sample.world) ∧
    main (H := ascii_lower)
      [lit "ppt_cloner.py"; lit "analyze"; lit "t.pptx"; lit "a.json"] Sample.world
    = (Ok (), {| files := <[lit "a.json" := FileAnalysis a]> (files Sample.world);
                 calls := [CallExport (lit "a.json")] |}).
Proof.
  destruct (main_analyze_outcome (H := ascii_lower)
              [lit "ppt_cloner.py"; lit "analyze"; lit "t.pptx"; lit "a.json"]
              Sample.world (lit "t.pptx") Sample.template)
    as (a & Ha & Hmain);
    [reflexivity|reflexivity|exact sample_file|exact sample_well_formed|].
  exists a. split; [exact Ha|exact Hmain].
Defined.
